(** * extract-supabase-key.py: a shallow embedding and its properties

    The script [scripts/dev/extract-supabase-key.py] backs up [.env.local],
    obtains an API key (browser automation, then a prompt loop), validates
    its shape and rewrites one assignment line of the environment file.

    Python [str] values are sequences of Unicode code points: they are
    modelled as [list N].  A text file is modelled by the characters it
    holds; [read_text] applies the universal-newline translation of
    Python's text mode, [write_text] writes the characters as they are
    (the POSIX case, [os.linesep = "\n"]).  Decoding and encoding errors,
    permissions and directories are below the model.

    The functions of the script are computations on a world: the files,
    the clock, what the operator will answer at the prompts, what has been
    printed, and the answers of Selenium.  The operator can interrupt at a
    prompt, and while the page is scanned.  What is printed is recorded as
    one constructor for each
    [print] of the source, with its arguments and without its wording. *)

From Stdlib Require Import ZArith NArith Lia Ascii String.
From stdpp Require Import base option list gmap strings pretty.

Local Open Scope N_scope.
Local Open Scope nat_scope.

(** ** Python strings *)

Abbreviation str := (list N).

Module Str.

(** Code point of an ASCII character. *)
Definition chr (a : ascii) : N := N_of_ascii a.

(** Line feed, carriage return, double quote and backslash. *)
Definition NL : N := 10.
Definition CR : N := 13.
Definition QUOTE : N := 34.
Definition BACKSLASH : N := 92.

(** UTF-8 decoding of a sequence of bytes (only used on literals of this
    file, which are well formed). *)
Fixpoint decode (bs : list N) : str :=
  match bs with
  | [] => []
  | b :: r =>
    if (b <? 128)%N then b :: decode r
    else if (b <? 224)%N then
      match r with
      | b1 :: r1 => ((b - 192) * 64 + (b1 - 128))%N :: decode r1
      | _ => []
      end
    else if (b <? 240)%N then
      match r with
      | b1 :: b2 :: r2 =>
        ((b - 224) * 4096 + (b1 - 128) * 64 + (b2 - 128))%N :: decode r2
      | _ => []
      end
    else
      match r with
      | b1 :: b2 :: b3 :: r3 =>
        ((b - 240) * 262144 + (b1 - 128) * 4096 + (b2 - 128) * 64
         + (b3 - 128))%N :: decode r3
      | _ => []
      end
  end.

(** The text that a sequence of UTF-8 bytes encodes. *)
Definition u8 (s : string) : str :=
  decode (map N_of_ascii (list_ascii_of_string s)).

(** A literal of the source, decoded once and for all. *)
Notation "'lit' s" :=
  (ltac:(let v := eval vm_compute in (u8 s) in exact v))
  (at level 10, s at level 0, only parsing).

(** [not s]: the empty string is the only falsy one. *)
Definition falsy (s : str) : bool :=
  match s with [] => true | _ :: _ => false end.

(** [s.startswith(p)] *)
Fixpoint startswith (p s : str) : bool :=
  match p, s with
  | [], _ => true
  | _ :: _, [] => false
  | a :: p', b :: s' => (a =? b)%N && startswith p' s'
  end.

(** [s.find(p)], with [None] for Python's [-1]. *)
Fixpoint find (p s : str) : option nat :=
  if startswith p s then Some 0
  else match s with
       | [] => None
       | _ :: r => S <$> find p r
       end.

(** [p in s] *)
Definition contains (p s : str) : bool :=
  match find p s with Some _ => true | None => false end.

(** [s.split(sep)] for a separator of one character, as in every call of
    the script: the pieces between the separators, empty pieces kept. *)
Fixpoint split (sep : N) (s : str) : list str :=
  match s with
  | [] => [[]]
  | c :: r =>
    if (c =? sep)%N then [] :: split sep r
    else match split sep r with
         | piece :: pieces => (c :: piece) :: pieces
         | [] => [[c]]
         end
  end.

(** [sep.join(pieces)] *)
Fixpoint join (sep : N) (pieces : list str) : str :=
  match pieces with
  | [] => []
  | [piece] => piece
  | piece :: rest => piece ++ sep :: join sep rest
  end.

(** [c.isspace()]: the code points CPython classifies as whitespace. *)
Definition isspace (c : N) : bool :=
  ((9 <=? c) && (c <=? 13) || (28 <=? c) && (c <=? 32)
   || (c =? 133) || (c =? 160) || (c =? 5760)
   || (8192 <=? c) && (c <=? 8202)
   || (c =? 8232) || (c =? 8233) || (c =? 8239) || (c =? 8287)
   || (c =? 12288))%N.

(** [s.lstrip()], [s.rstrip()], [s.strip()] *)
Fixpoint lstrip (s : str) : str :=
  match s with
  | [] => []
  | c :: r => if isspace c then lstrip r else s
  end.

Definition rstrip (s : str) : str := reverse (lstrip (reverse s)).

Definition strip (s : str) : str := rstrip (lstrip s).

(** [s[-n:]] for [0 < n] *)
Definition last_chars (n : nat) (s : str) : str := drop (length s - n) s.

End Str.

Import Str.

Definition DOT : N := chr ".".

(** ** [validate_api_key] (lines 41-59) *)

Definition validate_api_key (api_key : str) : bool * str :=
  if falsy api_key then
    (false, lit "API key is empty")
  else if negb (startswith (lit "eyJ") api_key) then
    (false, lit "JWT tokens should start with 'eyJ'")
  else if negb (contains [DOT] api_key) then
    (false, lit "JWT tokens should contain dots")
  else
    let parts := split DOT api_key in
    if negb (length parts =? 3) then
      (false, lit "JWT tokens should have exactly 3 parts separated by dots")
    else if length api_key <? 100 then
      (false, lit "API key seems too short")
    else
      (true, lit "Valid").

(** ** The [re] module, for the one pattern of the script *)

Module Re.

(** The pattern [r'NEXT_PUBLIC_SUPABASE_ANON_KEY=.*'], compiled without
    flags: the literal text, then [.*], the longest run of characters
    other than the line feed.  The pattern has no group. *)
Definition literal : str := lit "NEXT_PUBLIC_SUPABASE_ANON_KEY=".

(** Length of the run matched by [.*] at the start of [s]. *)
Fixpoint dot_star (s : str) : nat :=
  match s with
  | [] => 0
  | c :: r => if (c =? NL)%N then 0 else S (dot_star r)
  end.

(** [re.search(pattern, s)]: the span [(start, end)] of the leftmost
    match. *)
Definition search (s : str) : option (nat * nat) :=
  match find literal s with
  | Some i =>
    let j := i + length literal in Some (i, j + dot_star (drop j s))
  | None => None
  end.

Definition isdigit (c : N) : bool := ((48 <=? c) && (c <=? 57))%N.
Definition isoctdigit (c : N) : bool := ((48 <=? c) && (c <=? 55))%N.
Definition isasciiletter (c : N) : bool :=
  ((65 <=? c) && (c <=? 90) || (97 <=? c) && (c <=? 122))%N.
Definition digit (c : N) : N := (c - 48)%N.

(** The escapes a replacement template knows: a, b, f, n, r, t, v and the
    backslash itself. *)
Definition escape (c : N) : option N :=
  if (c =? chr "a")%N then Some 7%N
  else if (c =? chr "b")%N then Some 8%N
  else if (c =? chr "f")%N then Some 12%N
  else if (c =? chr "n")%N then Some 10%N
  else if (c =? chr "r")%N then Some 13%N
  else if (c =? chr "t")%N then Some 9%N
  else if (c =? chr "v")%N then Some 11%N
  else if (c =? BACKSLASH)%N then Some BACKSLASH
  else None.

(** A group name (read in reverse) that denotes group 0, the whole match:
    a non-empty run of the digit 0.  Every other name is rejected for a
    pattern without groups (CPython 3.12; older versions take a few more
    spellings of zero). *)
Definition group_zero (name : str) : bool :=
  negb (falsy name) && forallb (fun c => (c =? chr "0")%N) name.

(** The text that replaces one match [whole] under the replacement
    template [t], as [re.sub] computes it for a pattern without groups;
    [None] when the template is rejected ([re.error], [IndexError]).
    [name] is [Some acc] while the name of a group reference is being
    read. *)
Fixpoint expand (whole : str) (name : option str) (t : str) : option str :=
  match name with
  | Some acc =>
    match t with
    | [] => None
    | c :: r =>
      if (c =? chr ">")%N then
        if group_zero acc then (fun o => whole ++ o) <$> expand whole None r
        else None
      else expand whole (Some (c :: acc)) r
    end
  | None =>
    match t with
    | [] => Some []
    | c :: r =>
      if negb (c =? BACKSLASH)%N then (fun o => c :: o) <$> expand whole None r
      else
        match r with
        | [] => None
        | e :: r1 =>
          if (e =? chr "g")%N then
            match r1 with
            | lt :: r2 =>
              if (lt =? chr "<")%N then expand whole (Some []) r2 else None
            | [] => None
            end
          else if (e =? chr "0")%N then
            match r1 with
            | d1 :: r2 =>
              if isoctdigit d1 then
                match r2 with
                | d2 :: r3 =>
                  if isoctdigit d2 then
                    (fun o => N.land (digit d1 * 8 + digit d2) 255 :: o)
                      <$> expand whole None r3
                  else (fun o => digit d1 :: o) <$> expand whole None r2
                | [] => Some [digit d1]
                end
              else (fun o => 0%N :: o) <$> expand whole None r1
            | [] => Some [0%N]
            end
          else if isdigit e then
            match r1 with
            | d1 :: r2 =>
              if isoctdigit e && isoctdigit d1 then
                match r2 with
                | d2 :: r3 =>
                  if isoctdigit d2 then
                    let v := (digit e * 64 + digit d1 * 8 + digit d2)%N in
                    if (255 <? v)%N then None
                    else (fun o => v :: o) <$> expand whole None r3
                  else None
                | [] => None
                end
              else None
            | [] => None
            end
          else
            match escape e with
            | Some x => (fun o => x :: o) <$> expand whole None r1
            | None =>
              if isasciiletter e then None
              else (fun o => BACKSLASH :: e :: o) <$> expand whole None r1
            end
        end
    end
  end.

(** The loop of [re.sub]: replace the leftmost match, go on after it.  A
    match of this pattern is never empty, so [fuel] above the length of
    the text is never used up. *)
Fixpoint sub_loop (fuel : nat) (template s : str) : option str :=
  match fuel with
  | 0 => Some s
  | S fuel' =>
    match search s with
    | None => Some s
    | Some (i, j) =>
      rep ← expand (take (j - i) (drop i s)) None template;
      rest ← sub_loop fuel' template (drop j s);
      Some (take i s ++ rep ++ rest)
    end
  end.

(** [re.sub(pattern, template, s)]; the template is checked before the
    first search. *)
Definition sub (template s : str) : option str :=
  match expand [] None template with
  | None => None
  | Some _ => sub_loop (S (length s)) template s
  end.

End Re.

(** ** [pathlib] *)

Abbreviation path := (list str).

Module Pathlib.

(** A path is the list of its components below its anchor. *)
Definition parent (p : path) : path := removelast p.

Definition joinpath (p : path) (child : str) : path := p ++ [child].

Definition name (p : path) : str := default [] (last p).

(** [s.rfind(c)], with [None] for [-1]. *)
Fixpoint rfind (c : N) (s : str) : option nat :=
  match s with
  | [] => None
  | x :: r =>
    match rfind c r with
    | Some i => Some (S i)
    | None => if (x =? c)%N then Some 0 else None
    end
  end.

(** [p.suffix]: from the last dot of the name, unless that dot is the first
    or the last character. *)
Definition suffix (p : path) : str :=
  let n := name p in
  match rfind DOT n with
  | Some i => if (0 <? i) && (i <? length n - 1) then drop i n else []
  | None => []
  end.

(** [p.with_suffix(s)], for a named path and a well-formed [s] (a dot,
    then text without separator), as at its one call. *)
Definition with_suffix (p : path) (s : str) : path :=
  let n := name p in
  let old_suffix := suffix p in
  let n' := if falsy old_suffix then n ++ s
            else take (length n - length old_suffix) n ++ s in
  removelast p ++ [n'].

End Pathlib.

(** ** The process and its world *)

(** What the operator does at one [input()] call: types a line, or
    interrupts (Ctrl+C).  An exhausted list is the end of the input. *)
Inductive keyboard :=
  | Line (text : str)
  | Interrupt.

(** Exceptions.  [Exception] stands for every class below Python's
    [Exception]; [SystemExit] and [KeyboardInterrupt] are not below it. *)
Inductive exn :=
  | SystemExit (code : Z)
  | KeyboardInterrupt
  | Exception (class : string).

(** What the script writes to standard output: one constructor for each
    [print] (or run of prints, or prompt), with the values it formats. *)
Inductive message :=
  | env_not_found (env_file : path)          (* line 33 *)
  | backup_created (backup_file : path)      (* line 38 *)
  | updated_existing                         (* line 72 *)
  | added_new                                (* line 76 *)
  | file_updated                             (* line 79 *)
  | selenium_attempt                         (* line 90 *)
  | navigated (url : str)                    (* line 104 *)
  | login_required                           (* line 111 *)
  | prompt_login                             (* line 112 *)
  | found_automatically                      (* line 142 *)
  | not_found_automatically                  (* line 145 *)
  | selenium_unavailable                     (* line 152 *)
  | selenium_failed (e : exn)                (* line 155 *)
  | manual_guide (url : str)                 (* lines 160-184 *)
  | prompt_key                               (* line 187 *)
  | validation_error (reason : str)          (* line 193 *)
  | try_again                                (* line 194 *)
  | banner (project_ref url : str)           (* lines 198-201 *)
  | falling_back                             (* line 211 *)
  | final_validation_failed (reason : str)   (* line 217 *)
  | validation_passed                        (* line 220 *)
  | key_preview (head tail : str)            (* line 221 *)
  | success (env_file : path)                (* lines 226-230 *)
  | usage                                    (* line 234 *)
  | cancelled                                (* line 240 *)
  | unexpected_error (e : exn).              (* line 243 *)

(** An element a selector finds: its [text]; or a failure to read it, by
    an exception of Selenium, or by the interrupt of the operator (Ctrl+C
    while the text is read). *)
Inductive element :=
  | Text (text : str)
  | Stale
  | Interrupted.

(** Selenium and the browser it drives are outside the script: each call
    into them is answered by this record. *)
Record chrome := {
  selenium_installed : bool;   (* the imports of lines 84-88 succeed *)
  chrome_starts : bool;        (* [webdriver.Chrome(...)] returns *)
  page_opens : bool;           (* [driver.get(...)] returns *)
  current_url : str;           (* [driver.current_url] *)
  find_elements : str -> option (list element);
                               (* [None]: the call raises, an exception
                                  of Selenium or [KeyboardInterrupt] *)
  chrome_quits : bool          (* [driver.quit()] returns *)
}.

Record world := {
  files : gmap path str;       (* the regular text files *)
  clock : Z;                   (* [int(time.time())] *)
  stdin : list keyboard;
  stdout : list message;       (* oldest first *)
  browser : chrome
}.

Definition set_files (f : gmap path str) (w : world) : world :=
  {| files := f; clock := clock w; stdin := stdin w; stdout := stdout w;
     browser := browser w |}.

Definition set_stdin (i : list keyboard) (w : world) : world :=
  {| files := files w; clock := clock w; stdin := i; stdout := stdout w;
     browser := browser w |}.

Definition set_stdout (o : list message) (w : world) : world :=
  {| files := files w; clock := clock w; stdin := stdin w; stdout := o;
     browser := browser w |}.

(** *** Computations: state passing with exceptions *)

Inductive outcome (A : Type) :=
  | Ret (a : A)
  | Raise (e : exn).
Arguments Ret {A} a.
Arguments Raise {A} e.

Definition M (A : Type) : Type := world -> outcome A * world.

Definition ret {A} (a : A) : M A := fun w => (Ret a, w).

Definition raise {A} (e : exn) : M A := fun w => (Raise e, w).

Definition bind {A B} (m : M A) (k : A -> M B) : M B :=
  fun w =>
    match m w with
    | (Ret a, w') => k a w'
    | (Raise e, w') => (Raise e, w')
    end.

Notation "x <- m ;; k" := (bind m (fun x => k))
  (at level 100, m at next level, right associativity).
Notation "m ;; k" := (bind m (fun _ => k))
  (at level 100, right associativity).

(** [try: body finally: cleanup]: the cleanup runs in every case, and an
    exception of the cleanup replaces the outcome of the body. *)
Definition try_finally {A} (body : M A) (cleanup : M unit) : M A :=
  fun w =>
    match body w with
    | (r, w') =>
      match cleanup w' with
      | (Ret _, w'') => (r, w'')
      | (Raise e, w'') => (Raise e, w'')
      end
    end.

(** [try: body except Exception as e: handler] *)
Definition try_except {A} (body : M A) (handler : exn -> M A) : M A :=
  fun w =>
    match body w with
    | (Raise (Exception c), w') => handler (Exception c) w'
    | r => r
    end.

Definition print (m : message) : M unit :=
  fun w => (Ret tt, set_stdout (stdout w ++ [m]) w).

(** [input(prompt)] *)
Definition input (prompt : message) : M str :=
  print prompt ;;
  fun w =>
    match stdin w with
    | [] => (Raise (Exception "EOFError"), w)
    | Interrupt :: rest => (Raise KeyboardInterrupt, set_stdin rest w)
    | Line text :: rest => (Ret text, set_stdin rest w)
    end.

(** [sys.exit(code)] *)
Definition sys_exit {A} (code : Z) : M A := raise (SystemExit code).

(** Universal newlines: CR LF and a lone CR are read as one line feed. *)
Fixpoint universal_newlines (s : str) : str :=
  match s with
  | [] => []
  | c :: r =>
    if (c =? CR)%N then
      match r with
      | d :: r' =>
        if (d =? NL)%N then NL :: universal_newlines r'
        else NL :: universal_newlines r
      | [] => [NL]
      end
    else c :: universal_newlines r
  end.

(** [p.exists()], [p.read_text()], [p.write_text(data)].  The files of
    the model hold text: what [read_text] decodes and [write_text]
    encodes.  [write_text] is the write of a text that the encoding of the
    locale can encode, as every text read from a file is.  For a text that
    it cannot encode (a key with a lone surrogate) the real call raises
    [UnicodeEncodeError] after it has emptied the file.  The model leaves
    this failure out: what it says of an update that succeeds is said of
    keys that can be encoded. *)
Definition exists_ (p : path) : M bool :=
  fun w => (Ret (bool_decide (is_Some (files w !! p))), w).

Definition read_text (p : path) : M str :=
  fun w =>
    match files w !! p with
    | Some data => (Ret (universal_newlines data), w)
    | None => (Raise (Exception "FileNotFoundError"), w)
    end.

Definition write_text (p : path) (data : str) : M unit :=
  fun w => (Ret tt, set_files (<[p := data]> (files w)) w).

(** [int(time.time())] *)
Definition time_now : M Z := fun w => (Ret (clock w), w).

Definition driver : M chrome := fun w => (Ret (browser w), w).

(** ** The script *)

Section Script.

(** [__file__]: where the script is installed. *)
Variable file__ : path.

(** Configuration (lines 24-28) *)
Definition PROJECT_REF : str := lit "ohkueislstxomdjavyhs".
Definition DASHBOARD_URL : str :=
  lit "https://app.supabase.com/project/" ++ PROJECT_REF
  ++ lit "/settings/api".
Definition SCRIPT_DIR : path := Pathlib.parent file__.
Definition PROJECT_DIR : path := Pathlib.parent SCRIPT_DIR.
Definition ENV_FILE : path := Pathlib.joinpath PROJECT_DIR (lit ".env.local").

(** [create_backup] (lines 30-39) *)
Definition create_backup : M path :=
  present <- exists_ ENV_FILE ;;
  (if negb present then
     print (env_not_found ENV_FILE) ;;
     sys_exit 1
   else ret tt) ;;
  now <- time_now ;;
  let backup_file :=
    Pathlib.with_suffix ENV_FILE (lit ".local.backup." ++ u8 (pretty now)) in
  text <- read_text ENV_FILE ;;
  write_text backup_file text ;;
  print (backup_created backup_file) ;;
  ret backup_file.

(** [update_env_file] (lines 61-79) *)
Definition replacement (new_api_key : str) : str :=
  lit "NEXT_PUBLIC_SUPABASE_ANON_KEY=" ++ [QUOTE] ++ new_api_key ++ [QUOTE].

Definition update_env_file (new_api_key : str) : M unit :=
  content <- read_text ENV_FILE ;;
  let replacement := replacement new_api_key in
  new_content <-
    (match Re.search content with
     | Some _ =>
       match Re.sub replacement content with
       | Some new_content =>
         print updated_existing ;;
         ret new_content
       | None => raise (Exception "re.error") (* or [IndexError] *)
       end
     | None =>
       print added_new ;;
       ret (rstrip content ++ [NL] ++ replacement ++ [NL])
     end) ;;
  write_text ENV_FILE new_content ;;
  print file_updated.

(** [try_selenium_extraction] (lines 81-156).  The options given to
    Chrome and the pause of line 107 have no effect in the model. *)
Definition selectors : list str :=
  [ lit "[data-testid*='anon']"; lit "[data-testid*='api-key']"; lit "code";
    lit "pre"; lit ".api-key"; lit ".anon-key" ].

(** The loop of lines 128-135 over the elements of one selector: the value
    of [api_key] after it, or the exception it met. *)
Fixpoint scan_elements (elements : list element) : outcome (option str) :=
  match elements with
  | [] => Ret None
  | Stale :: _ => Raise (Exception "WebDriverException")
  | Interrupted :: _ => Raise KeyboardInterrupt
  | Text t :: rest =>
    let text := strip t in
    if startswith (lit "eyJ") text && (100 <? length text) then
      let parts := split DOT text in
      if length parts =? 3 then Ret (Some text)
      else scan_elements rest
    else scan_elements rest
  end.

(** The loop of lines 125-139 over the selectors; its bare [except]
    moves on to the next selector, whatever was raised: an exception of
    Selenium, or the [KeyboardInterrupt] of an operator who presses Ctrl+C
    during the scan. *)
Fixpoint scan_selectors (b : chrome) (sels : list str) : option str :=
  match sels with
  | [] => None
  | selector :: rest =>
    match find_elements b selector with
    | None => scan_selectors b rest
    | Some elements =>
      match scan_elements elements with
      | Ret (Some api_key) => Some api_key
      | Ret None => scan_selectors b rest
      | Raise _ => scan_selectors b rest
      end
    end
  end.

Definition try_selenium_extraction : M (option str) :=
  b <- driver ;;
  if negb (selenium_installed b) then
    print selenium_unavailable ;;
    ret None
  else
    try_except
      (print selenium_attempt ;;
       (if chrome_starts b then ret tt
        else raise (Exception "WebDriverException")) ;;
       try_finally
         ((if page_opens b then ret tt
           else raise (Exception "WebDriverException")) ;;
          print (navigated DASHBOARD_URL) ;;
          (if contains (lit "login") (current_url b)
              || contains (lit "auth") (current_url b)
           then
             print login_required ;;
             _ <- input prompt_login ;;
             ret tt
           else ret tt) ;;
          match scan_selectors b selectors with
          | Some api_key =>
            print found_automatically ;;
            ret (Some api_key)
          | None =>
            print not_found_automatically ;;
            ret None
          end)
         (if chrome_quits b then ret tt
          else raise (Exception "WebDriverException")))
      (fun e =>
         print (selenium_failed e) ;;
         ret None).

(** [manual_extraction] (lines 158-194).  One round of the [while True]
    loop of lines 186-194 returns the key, or [None] to go round again. *)
Definition prompt_round : M (option str) :=
  api_key <- input prompt_key ;;
  let api_key := strip api_key in
  let '(valid, message) := validate_api_key api_key in
  if valid then ret (Some api_key)
  else
    print (validation_error message) ;;
    print try_again ;;
    ret None.

(** The loop.  Every round reads one answer, so a loop started with as
    many [rounds] as there are answers left ends inside [input], at the
    latest on the end of the input, and never runs out of rounds. *)
Fixpoint prompt_loop (rounds : nat) : M str :=
  r <- prompt_round ;;
  match r with
  | Some api_key => ret api_key
  | None =>
    match rounds with
    | 0 => raise (Exception "EOFError")
    | S rounds' => prompt_loop rounds'
    end
  end.

Definition manual_extraction : M str :=
  print (manual_guide DASHBOARD_URL) ;;
  fun w => prompt_loop (length (stdin w)) w.

(** [main] (lines 196-230); [finish] is its second half, from the final
    validation on (lines 214-230). *)
Definition finish (api_key : str) : M unit :=
  let '(valid, message) := validate_api_key api_key in
  (if negb valid then
     print (final_validation_failed message) ;;
     sys_exit 1
   else ret tt) ;;
  print validation_passed ;;
  print (key_preview (take 20 api_key) (last_chars 20 api_key)) ;;
  update_env_file api_key ;;
  print (success ENV_FILE).

Definition main : M unit :=
  print (banner PROJECT_REF DASHBOARD_URL) ;;
  _ <- create_backup ;;
  found <- try_selenium_extraction ;;
  api_key <-
    (match found with
     | Some api_key =>
       if falsy api_key then
         print falling_back ;;
         manual_extraction
       else ret api_key
     | None =>
       print falling_back ;;
       manual_extraction
     end) ;;
  finish api_key.

(** The [__main__] block (lines 232-244) *)
Definition dunder_main (argv : list str) : M unit :=
  if (1 <? length argv)
     && bool_decide (argv !! 1 ∈ [Some (lit "--help"); Some (lit "-h")])
  then
    print usage ;;
    sys_exit 0
  else
    fun w =>
      match main w with
      | (Raise KeyboardInterrupt, w') =>
        (print cancelled ;; sys_exit 0) w'
      | (Raise (Exception c), w') =>
        (print (unexpected_error (Exception c)) ;; sys_exit 1) w'
      | r => r
      end.

(** The exit status of the process: 0 when the script runs to its end,
    the code of a [SystemExit] otherwise.  No other exception leaves
    [dunder_main] (lemma [dunder_main_outcome]); the last case is there
    for totality. *)
Definition exit_status (r : outcome unit) : Z :=
  match r with
  | Ret _ => 0
  | Raise (SystemExit code) => code
  | Raise _ => 1
  end%Z.

Definition run (argv : list str) (w : world) : Z * world :=
  let '(r, w') := dunder_main argv w in (exit_status r, w').

End Script.

(** ** Vocabulary of the specification *)

(** The lines of a text: what lies between its line feeds. *)
Definition lines (content : str) : list str := split NL content.

(** A line assigns the target variable when the pattern matches in it,
    that is when it contains [NEXT_PUBLIC_SUPABASE_ANON_KEY=]. *)
Definition assigns (line : str) : bool := contains Re.literal line.

(** The number of lines of a text that assign the target variable. *)
Definition assignments (content : str) : nat :=
  length (filter (fun line => assigns line = true) (lines content)).

(** A line whose assignment is replaced: what precedes the name of the
    variable stays, the rest of the line becomes [new_text]. *)
Definition rewrite_line (new_text line : str) : str :=
  match find Re.literal line with
  | Some i => take i line ++ new_text
  | None => line
  end.

(** Lines 63-76 of [update_env_file] as a function of the text read; [None]
    when [re.sub] rejects the replacement. *)
Definition updated (new_api_key content : str) : option str :=
  match Re.search content with
  | Some _ => Re.sub (replacement new_api_key) content
  | None => Some (rstrip content ++ [NL] ++ replacement new_api_key ++ [NL])
  end.

(** What the prompt loop makes of the answers of the operator: the first
    answer that is valid once stripped, unless an interrupt or the end of
    the input comes before it. *)
Fixpoint first_valid_answer (answers : list keyboard) : outcome str :=
  match answers with
  | [] => Raise (Exception "EOFError")
  | Interrupt :: _ => Raise KeyboardInterrupt
  | Line text :: rest =>
    if fst (validate_api_key (strip text)) then Ret (strip text)
    else first_valid_answer rest
  end.

(** ** Sample inputs *)

(** A key of the right shape, of 101 characters. *)
Definition sample_key : str :=
  lit "eyJ" ++ [DOT] ++ replicate 48 (chr "a") ++ [DOT]
  ++ replicate 48 (chr "b").

(** A key of the right shape that holds a double quote, a space, a line
    feed and a backslash. *)
Definition odd_key : str :=
  lit "eyJ" ++ [QUOTE; chr " "; NL; BACKSLASH; DOT]
  ++ replicate 47 (chr "a") ++ [DOT] ++ replicate 47 (chr "b").

(** A key of the right shape in which a backslash is followed by the
    letter n. *)
Definition escape_key : str :=
  lit "eyJ" ++ [BACKSLASH; chr "n"; DOT]
  ++ replicate 48 (chr "a") ++ [DOT] ++ replicate 48 (chr "b").

(** A key of the right shape in which a backslash is followed by the
    letter q. *)
Definition bad_escape_key : str :=
  lit "eyJ" ++ [BACKSLASH; chr "q"; DOT]
  ++ replicate 48 (chr "a") ++ [DOT] ++ replicate 48 (chr "b").

(** A key (not of the right shape) with a line feed in it. *)
Definition two_line_key : str := lit "a" ++ [NL] ++ lit "b".

(** Where the script is installed in the repository. *)
Definition sample_file : path :=
  [lit "scripts"; lit "dev"; lit "extract-supabase-key.py"].

(** A machine without Selenium. *)
Definition no_selenium : chrome :=
  {| selenium_installed := false; chrome_starts := false;
     page_opens := false; current_url := [];
     find_elements := fun _ => None; chrome_quits := true |}.

(** A world in which the given files exist and the operator gives the
    given answers. *)
Definition sample_world (fs : gmap path str) (answers : list keyboard)
  : world :=
  {| files := fs; clock := 1700000000; stdin := answers; stdout := [];
     browser := no_selenium |}.

(** A world in which the environment file holds [data]. *)
Definition env_world (data : str) (answers : list keyboard) : world :=
  sample_world {[ENV_FILE sample_file := data]} answers.

(** Environment files: one assignment between two other lines; two
    assignments; no assignment and blanks at the end; CR LF line ends. *)
Definition env_one : str :=
  lit "A=1" ++ [NL] ++ lit "NEXT_PUBLIC_SUPABASE_ANON_KEY=old" ++ [NL]
  ++ lit "B=2" ++ [NL].
Definition env_crlf : str := lit "A=1" ++ [CR; NL].



(** The backup that [create_backup] writes in the sample worlds. *)
Definition sample_backup : path :=
  [lit "scripts"; lit ".env.local.backup.1700000000"].

(** The command line without argument, and an operator who first pastes
    a wrong text, then the sample key between blanks, or who first pastes
    a wrong text and then interrupts. *)
Definition sample_argv : list str := [lit "scripts/dev/extract-supabase-key.py"].
Definition patient_operator : list keyboard :=
  [Line (lit "abc.def"); Line (lit "  " ++ sample_key ++ lit " ")].
Definition impatient_operator : list keyboard :=
  [Line (lit "abc.def"); Interrupt].

(** ** Vocabulary and samples for the further properties *)

(** The test of lines 130-133 on the stripped text of an element. *)
Definition accepts (text : str) : bool :=
  startswith (lit "eyJ") text && (100 <? length text)
  && (length (split DOT text) =? 3).

(** What the prompt loop prints for one rejected answer (lines 187-194):
    the prompt, the reason of the rejection, the invitation to try again. *)
Definition rejection (text : str) : list message :=
  [prompt_key; validation_error (snd (validate_api_key (strip text)));
   try_again].

(** The middle of [main] (lines 206-212): the automated path, then the
    manual path when it brought nothing. *)
Definition extraction : M str :=
  found <- try_selenium_extraction ;;
  match found with
  | Some api_key =>
    if falsy api_key then
      print falling_back ;;
      manual_extraction
    else ret api_key
  | None =>
    print falling_back ;;
    manual_extraction
  end.

(** A selector that yields nothing: the call raises, or reading an
    element raises, or no element is accepted. *)
Definition yields_nothing (b : chrome) (selector : str) : Prop :=
  match find_elements b selector with
  | None => True
  | Some elements =>
    match scan_elements elements with
    | Ret (Some _) => False
    | _ => True
    end
  end.

(** The name that [create_backup] gives to the backup taken at [now]. *)
Definition backup_at (file__ : path) (now : Z) : path :=
  PROJECT_DIR file__ ++ [lit ".env.local.backup." ++ u8 (pretty now)].

(** The characters of a string are ASCII. *)
Definition ascii_only (s : string) : Prop :=
  Forall (fun a => (N_of_ascii a < 128)%N) (list_ascii_of_string s).


(** A key of the right shape, of exactly 100 characters. *)
Definition edge_key : str :=
  lit "eyJ" ++ [DOT] ++ replicate 48 (chr "a") ++ [DOT]
  ++ replicate 47 (chr "b").

(** A browser that is on the settings page (or, with [login], on the
    login page), in which the selector [code] finds [elements] and the
    other selectors find nothing. *)
Definition sample_chrome (login quits : bool) (elements : list element)
  : chrome :=
  {| selenium_installed := true; chrome_starts := true; page_opens := true;
     current_url := if login then lit "https://app.supabase.com/login"
                    else DASHBOARD_URL;
     find_elements := fun selector =>
       if bool_decide (selector = lit "code") then Some elements
       else Some [];
     chrome_quits := quits |}.

Definition chrome_world (b : chrome) (answers : list keyboard) : world :=
  {| files := {[ENV_FILE sample_file := env_one]}; clock := 1700000000;
     stdin := answers; stdout := []; browser := b |}.

(** * Properties *)

(** ** Strings *)

Section StrFacts.

Implicit Types (p s r : str) (c : N).

Lemma startswith_spec p s : startswith p s = true <-> exists r, s = p ++ r.
Proof.
  revert s. induction p as [|a p IH]; intros s; simpl.
  - split; [intros _; by exists s | done].
  - destruct s as [|b s].
    + split; [done | intros [r Hr]; discriminate].
    + rewrite andb_true_iff, N.eqb_eq, IH. split.
      * intros [-> [r ->]]. by exists r.
      * intros [r Hr]. injection Hr as -> ->. eauto.
Qed.

Lemma startswith_app p r : startswith p (p ++ r) = true.
Proof. apply startswith_spec. by exists r. Qed.

Lemma startswith_nil_r p : startswith p [] = true -> p = [].
Proof. by destruct p. Qed.

Lemma find_cons p a s :
  find p (a :: s) = if startswith p (a :: s) then Some 0 else S <$> find p s.
Proof. reflexivity. Qed.

Lemma find_Some_split p s i :
  find p s = Some i -> s = take i s ++ p ++ drop (i + length p) s.
Proof.
  revert i. induction s as [|a s IH]; intros i.
  - simpl. destruct (startswith p []) eqn:E; [|done].
    intros [= <-]. by rewrite (startswith_nil_r _ E).
  - rewrite find_cons. destruct (startswith p (a :: s)) eqn:E.
    + intros [= <-]. apply startswith_spec in E as [r Hr].
      rewrite Hr at 1. simpl. rewrite Hr. by rewrite drop_app_length.
    + destruct (find p s) as [j|] eqn:F; [|done].
      intros [= <-]. simpl. f_equal. by apply IH.
Qed.

Lemma contains_single c s : contains [c] s = true <-> c ∈ s.
Proof.
  unfold contains. induction s as [|a s IH].
  - simpl. split; [done | by intros ?%elem_of_nil].
  - rewrite find_cons. simpl startswith. rewrite andb_true_r.
    destruct (c =? a)%N eqn:E.
    + apply N.eqb_eq in E as ->. split; [intros _; left | done].
    + apply N.eqb_neq in E. rewrite elem_of_cons.
      destruct (find [c] s); simpl; split; try done.
      * intros _. right. by apply IH.
      * intros [?|H]; [done | by apply IH in H].
Qed.

Lemma split_nonempty c s : split c s <> [].
Proof.
  destruct s as [|a s]; simpl; [done|].
  destruct (a =? c)%N; [done|]. by destruct (split c s).
Qed.

(** The number of pieces is one more than the number of separators. *)
Lemma split_length c s :
  length (split c s) = S (length (filter (fun a => a = c) s)).
Proof.
  induction s as [|a s IH]; simpl; [done|].
  destruct (a =? c)%N eqn:E.
  - apply N.eqb_eq in E as ->. rewrite filter_cons_True by done.
    simpl. by rewrite IH.
  - apply N.eqb_neq in E. rewrite filter_cons_False by done.
    rewrite <- IH. pose proof (split_nonempty c s).
    by destruct (split c s).
Qed.

Lemma join_split c s : join c (split c s) = s.
Proof.
  induction s as [|a s IH]; simpl; [done|].
  destruct (a =? c)%N eqn:E.
  - apply N.eqb_eq in E as ->. pose proof (split_nonempty c s).
    simpl. destruct (split c s); [done|]. by rewrite IH.
  - pose proof (split_nonempty c s).
    destruct (split c s) as [|piece pieces]; [done|].
    rewrite <- IH. by destruct pieces.
Qed.

Lemma split_no_sep c s : c ∉ s -> split c s = [s].
Proof.
  induction s as [|a s IH]; simpl; [done|].
  intros [Hne Hs]%not_elem_of_cons.
  destruct (N.eqb_spec a c); [congruence|]. by rewrite IH.
Qed.

End StrFacts.

(** ** Validation *)

(** The verdict is the conjunction of the five checks. *)
Lemma validate_api_key_fst (api_key : str) :
  fst (validate_api_key api_key)
  = negb (falsy api_key) && startswith (lit "eyJ") api_key
    && contains [DOT] api_key && (length (split DOT api_key) =? 3)
    && negb (length api_key <? 100).
Proof.
  unfold validate_api_key.
  destruct (falsy api_key), (startswith (lit "eyJ") api_key),
    (contains [DOT] api_key), (length (split DOT api_key) =? 3),
    (length api_key <? 100); reflexivity.
Qed.

Lemma validate_api_key_snd (api_key : str) :
  fst (validate_api_key api_key) = true ->
  snd (validate_api_key api_key) = lit "Valid".
Proof.
  unfold validate_api_key.
  destruct (falsy api_key), (startswith (lit "eyJ") api_key),
    (contains [DOT] api_key), (length (split DOT api_key) =? 3),
    (length api_key <? 100); simpl; congruence.
Qed.

(** C1. [validate_api_key] answers [True] exactly for the strings that
    are non-empty, start with the three characters [eyJ], contain a dot,
    split on the dot into exactly three parts and have at least 100
    characters; the reason it gives with [True] is ["Valid"]. *)
Theorem validate_api_key_true_iff (api_key : str) :
  length (lit "eyJ") = 3
  /\ (fst (validate_api_key api_key) = true <->
      api_key <> []
      /\ (exists rest, api_key = lit "eyJ" ++ rest)
      /\ DOT ∈ api_key
      /\ length (split DOT api_key) = 3
      /\ 100 <= length api_key)
  /\ (fst (validate_api_key api_key) = true ->
      snd (validate_api_key api_key) = lit "Valid").
Proof.
  split; [reflexivity|]. split.
  - rewrite validate_api_key_fst, !andb_true_iff, negb_true_iff.
    rewrite startswith_spec, contains_single, Nat.eqb_eq, negb_true_iff,
      Nat.ltb_ge.
    destruct api_key; simpl falsy; intuition congruence.
  - apply validate_api_key_snd.
Qed.

Lemma validate_api_key_true_iff_witness :
  fst (validate_api_key sample_key) = true
  /\ snd (validate_api_key sample_key) = lit "Valid".
Proof.
  destruct (validate_api_key_true_iff sample_key) as (_ & [_ Hvalid] & Hreason).
  assert (fst (validate_api_key sample_key) = true) as H.
  { apply Hvalid. split; [done|]. split.
    - exists (drop 3 sample_key). vm_compute. reflexivity.
    - split.
      + apply contains_single. vm_compute. reflexivity.
      + split; [vm_compute; reflexivity | vm_compute; lia]. }
  split; [exact H | exact (Hreason H)].
Defined.

(** C2, as amended.  For a string that starts with [eyJ] and whose number
    of parts is not three: when it contains a dot the reason is the one
    of the three-parts rule; when it contains no dot the reason is that
    of the rule before it, ["JWT tokens should contain dots"]. *)
Theorem validate_api_key_parts_reason (api_key : str) :
  (exists rest, api_key = lit "eyJ" ++ rest) ->
  length (split DOT api_key) <> 3 ->
  (DOT ∈ api_key ->
   validate_api_key api_key
   = (false, lit "JWT tokens should have exactly 3 parts separated by dots"))
  /\ (DOT ∉ api_key ->
      validate_api_key api_key = (false, lit "JWT tokens should contain dots")).
Proof.
  intros Hprefix Hparts.
  apply startswith_spec in Hprefix. apply Nat.eqb_neq in Hparts.
  assert (falsy api_key = false) as Hfalsy by by destruct api_key.
  unfold validate_api_key. rewrite Hfalsy, Hprefix, Hparts. cbn [negb].
  split; intros Hdot.
  - apply contains_single in Hdot. rewrite Hdot. reflexivity.
  - destruct (contains [DOT] api_key) eqn:E; [|reflexivity].
    exfalso. apply Hdot. by apply contains_single.
Qed.

Lemma validate_api_key_parts_reason_witness :
  validate_api_key (lit "eyJ.a")
  = (false, lit "JWT tokens should have exactly 3 parts separated by dots").
Proof.
  refine (proj1 (validate_api_key_parts_reason (lit "eyJ.a") _ _) _).
  - exists (lit ".a"). vm_compute. reflexivity.
  - vm_compute. lia.
  - apply contains_single. vm_compute. reflexivity.
Defined.

(** C2 as stated fails on [eyJ], which starts with the prefix and has one
    part: the reason given is not that of the three-parts rule. *)
Lemma validate_api_key_no_dot_counterexample :
  startswith (lit "eyJ") (lit "eyJ") = true
  /\ length (split DOT (lit "eyJ")) = 1
  /\ validate_api_key (lit "eyJ") = (false, lit "JWT tokens should contain dots")
  /\ validate_api_key (lit "eyJ")
     <> (false, lit "JWT tokens should have exactly 3 parts separated by dots").
Proof.
  split; [|split; [|split]]; try (vm_compute; reflexivity).
  vm_compute. discriminate.
Qed.

(** The shape that is enough for a key to be accepted. *)
Lemma validate_api_key_shape (api_key : str) :
  startswith (lit "eyJ") api_key = true ->
  length (split DOT api_key) = 3 ->
  100 <= length api_key ->
  validate_api_key api_key = (true, lit "Valid").
Proof.
  intros Hprefix Hparts Hlen.
  assert (DOT ∈ api_key) as Hdot.
  { destruct (decide (DOT ∈ api_key)) as [|Hno]; [done|].
    rewrite (split_no_sep _ _ Hno) in Hparts. discriminate. }
  apply contains_single in Hdot.
  assert (falsy api_key = false) as Hfalsy by by destruct api_key.
  apply Nat.ltb_ge in Hlen.
  unfold validate_api_key. rewrite Hfalsy, Hprefix, Hdot, Hparts, Hlen.
  reflexivity.
Qed.

(** C10. Beyond the prefix, the number of parts and the length,
    [validate_api_key] looks at no character: every string that starts
    with [eyJ], splits into three parts and has at least 100 characters
    is accepted, whatever else it contains. *)
Theorem validate_api_key_any_characters (api_key : str) :
  (exists rest, api_key = lit "eyJ" ++ rest) ->
  length (split DOT api_key) = 3 ->
  100 <= length api_key ->
  validate_api_key api_key = (true, lit "Valid").
Proof.
  intros Hprefix%startswith_spec. by apply validate_api_key_shape.
Qed.

Lemma validate_api_key_any_characters_witness :
  QUOTE ∈ odd_key /\ chr " " ∈ odd_key /\ NL ∈ odd_key
  /\ BACKSLASH ∈ odd_key
  /\ validate_api_key odd_key = (true, lit "Valid").
Proof.
  split; [|split; [|split; [|split]]];
    try (apply contains_single; vm_compute; reflexivity).
  refine (validate_api_key_any_characters odd_key _ _ _).
  - exists (drop 3 odd_key). vm_compute. reflexivity.
  - vm_compute. reflexivity.
  - vm_compute. lia.
Defined.
(** ** Searching *)

Section FindFacts.

Implicit Types (p s a b : str) (c : N).

Lemma find_nil p : p <> [] -> find p [] = None.
Proof. by destruct p. Qed.

Lemma startswith_head p c s : startswith p (c :: s) = true -> p = [] \/ c ∈ p.
Proof.
  destruct p as [|x p]; [by left|]. simpl.
  intros [->%N.eqb_eq _]%andb_true_iff. right. by left.
Qed.

(** A match of [p] cannot reach across a character that [p] lacks. *)
Lemma startswith_app_sep p a c b :
  c ∉ p -> startswith p (a ++ c :: b) = startswith p a.
Proof.
  revert a. induction p as [|x p IH]; intros a Hc; [done|].
  apply not_elem_of_cons in Hc as [Hx Hp].
  destruct a as [|y a]; simpl.
  - destruct (N.eqb_spec x c); [congruence | done].
  - by rewrite IH.
Qed.

Lemma find_app_sep p a c b :
  p <> [] -> c ∉ p ->
  find p (a ++ c :: b)
  = match find p a with
    | Some i => Some i
    | None => (fun j => length a + 1 + j) <$> find p b
    end.
Proof.
  intros Hp Hc. induction a as [|y a IH].
  - rewrite (find_nil _ Hp). simpl app. rewrite find_cons.
    destruct (startswith p (c :: b)) eqn:E.
    + by apply startswith_head in E as [?|?].
    + by destruct (find p b).
  - change ((y :: a) ++ c :: b) with (y :: (a ++ c :: b)).
    rewrite !find_cons.
    change (y :: (a ++ c :: b)) with ((y :: a) ++ c :: b).
    rewrite (startswith_app_sep p (y :: a) c b Hc).
    destruct (startswith p (y :: a)); [done|].
    rewrite IH. destruct (find p a); [done|].
    by destruct (find p b).
Qed.

Lemma contains_app_sep p a c b :
  p <> [] -> c ∉ p ->
  contains p (a ++ c :: b) = contains p a || contains p b.
Proof.
  intros Hp Hc. unfold contains. rewrite find_app_sep by done.
  destruct (find p a); [done|]. by destruct (find p b).
Qed.

Lemma contains_join p c (pieces : list str) :
  p <> [] -> c ∉ p ->
  contains p (join c pieces) = existsb (contains p) pieces.
Proof.
  intros Hp Hc. induction pieces as [|l ls IH].
  - simpl. unfold contains. by rewrite find_nil.
  - destruct ls as [|l2 ls].
    + simpl. by rewrite orb_false_r.
    + change (join c (l :: l2 :: ls)) with (l ++ c :: join c (l2 :: ls)).
      rewrite contains_app_sep, IH by done. reflexivity.
Qed.

Lemma find_Some_length p s i : find p s = Some i -> i + length p <= length s.
Proof.
  revert i. induction s as [|y s IH]; intros i.
  - simpl. destruct (startswith p []) eqn:E; [|done].
    intros [= <-]. by rewrite (startswith_nil_r _ E).
  - rewrite find_cons. destruct (startswith p (y :: s)) eqn:E.
    + intros [= <-]. apply startswith_spec in E as [r Hr].
      rewrite Hr, length_app. lia.
    + destruct (find p s) as [j|]; [|done]. intros [= <-].
      specialize (IH j eq_refl). simpl. lia.
Qed.

End FindFacts.

(** ** The pattern and [re.sub] *)

Section ReFacts.

Implicit Types (s t l rest : str) (c : N).

Lemma literal_nonempty : Re.literal <> [].
Proof. intros H. vm_compute in H. discriminate. Qed.

Lemma literal_no_NL : NL ∉ Re.literal.
Proof. apply (bool_decide_unpack _). vm_compute. reflexivity. Qed.

Lemma literal_length : length Re.literal = 30.
Proof. vm_compute. reflexivity. Qed.

Lemma dot_star_line l rest : NL ∉ l -> Re.dot_star (l ++ NL :: rest) = length l.
Proof.
  induction l as [|x l IH]; intros H; simpl.
  - reflexivity.
  - apply not_elem_of_cons in H as [Hx Hl].
    destruct (N.eqb_spec x NL); [congruence|]. by rewrite IH.
Qed.

Lemma dot_star_end l : NL ∉ l -> Re.dot_star l = length l.
Proof.
  induction l as [|x l IH]; intros H; simpl.
  - reflexivity.
  - apply not_elem_of_cons in H as [Hx Hl].
    destruct (N.eqb_spec x NL); [congruence|]. by rewrite IH.
Qed.

(** A template without backslash stands for itself. *)
Lemma expand_plain whole t : BACKSLASH ∉ t -> Re.expand whole None t = Some t.
Proof.
  induction t as [|x t IH]; intros H; simpl.
  - reflexivity.
  - apply not_elem_of_cons in H as [Hx Ht].
    destruct (N.eqb_spec x BACKSLASH); [congruence|]. simpl.
    by rewrite IH.
Qed.

Lemma search_None s : Re.search s = None <-> contains Re.literal s = false.
Proof.
  unfold Re.search, contains. by destruct (find Re.literal s).
Qed.

Lemma search_nil : Re.search [] = None.
Proof. unfold Re.search. by rewrite (find_nil _ literal_nonempty). Qed.

Lemma sub_loop_S fuel t s :
  Re.sub_loop (S fuel) t s
  = match Re.search s with
    | None => Some s
    | Some (i, j) =>
      rep ← Re.expand (take (j - i) (drop i s)) None t;
      rest ← Re.sub_loop fuel t (drop j s);
      Some (take i s ++ rep ++ rest)
    end.
Proof. reflexivity. Qed.

Lemma sub_loop_nil fuel t : Re.sub_loop fuel t [] = Some [].
Proof. destruct fuel; [done|]. by rewrite sub_loop_S, search_nil. Qed.

(** A character at which the pattern does not match is copied. *)
Lemma sub_loop_cons fuel t c s :
  startswith Re.literal (c :: s) = false ->
  Re.sub_loop fuel t (c :: s) = (fun o => c :: o) <$> Re.sub_loop fuel t s.
Proof.
  intros Hc. destruct fuel as [|fuel]; [reflexivity|].
  rewrite !sub_loop_S. unfold Re.search. rewrite find_cons, Hc.
  destruct (find Re.literal s) as [i|]; [|reflexivity].
  cbn [fmap option_fmap option_map Nat.add Nat.sub drop take].
  destruct (Re.expand _ None t) as [rep|]; [|reflexivity].
  cbn [mbind option_bind].
  destruct (Re.sub_loop fuel t _) as [o|]; reflexivity.
Qed.

(** A line without match is copied, with the line feed that ends it. *)
Lemma sub_loop_line_none fuel t l rest :
  find Re.literal l = None ->
  Re.sub_loop fuel t (l ++ NL :: rest)
  = (fun o => l ++ NL :: o) <$> Re.sub_loop fuel t rest.
Proof.
  induction l as [|x l IH]; intros Hl.
  - simpl app. rewrite sub_loop_cons; [done|].
    destruct (startswith Re.literal (NL :: rest)) eqn:E; [|done].
    apply startswith_head in E as [E|E].
    + by destruct literal_nonempty.
    + by destruct literal_no_NL.
  - rewrite find_cons in Hl.
    destruct (startswith Re.literal (x :: l)) eqn:E; [done|].
    destruct (find Re.literal l) eqn:F; [done|].
    change ((x :: l) ++ NL :: rest) with (x :: (l ++ NL :: rest)).
    rewrite sub_loop_cons.
    + rewrite IH by done. by destruct (Re.sub_loop fuel t rest).
    + change (x :: (l ++ NL :: rest)) with ((x :: l) ++ NL :: rest).
      by rewrite (startswith_app_sep _ _ _ _ literal_no_NL).
Qed.

Lemma search_line l rest i :
  NL ∉ l -> find Re.literal l = Some i ->
  Re.search (l ++ NL :: rest) = Some (i, length l)
  /\ Re.search l = Some (i, length l).
Proof.
  intros Hl Hi. pose proof (find_Some_length _ _ _ Hi) as Hlen.
  unfold Re.search.
  rewrite (find_app_sep _ _ _ _ literal_nonempty literal_no_NL), Hi.
  cbv zeta. rewrite drop_app_le by done.
  assert (NL ∉ drop (i + length Re.literal) l) as Hd.
  { intros H. apply Hl. by eapply subseteq_drop. }
  rewrite dot_star_line, dot_star_end by done.
  rewrite length_drop. split; do 2 f_equal; lia.
Qed.

(** A line with a match keeps what precedes the match and gets the
    replacement. *)
Lemma sub_loop_line_some fuel t l rest i :
  BACKSLASH ∉ t -> NL ∉ l -> find Re.literal l = Some i ->
  Re.sub_loop (S fuel) t (l ++ NL :: rest)
  = (fun o => take i l ++ t ++ NL :: o) <$> Re.sub_loop fuel t rest.
Proof.
  intros Ht Hl Hi. pose proof (find_Some_length _ _ _ Hi) as Hlen.
  destruct (search_line l rest i Hl Hi) as [Hs _].
  rewrite sub_loop_S, Hs, expand_plain by done.
  cbn [mbind option_bind].
  rewrite drop_app_length, take_app_le by lia.
  rewrite sub_loop_cons.
  - by destruct (Re.sub_loop fuel t rest).
  - destruct (startswith Re.literal (NL :: rest)) eqn:E; [|done].
    apply startswith_head in E as [E|E].
    + by destruct literal_nonempty.
    + by destruct literal_no_NL.
Qed.

Lemma sub_loop_last_line fuel t l :
  BACKSLASH ∉ t -> NL ∉ l ->
  Re.sub_loop (S fuel) t l = Some (rewrite_line t l).
Proof.
  intros Ht Hl. unfold rewrite_line. rewrite sub_loop_S.
  destruct (find Re.literal l) as [i|] eqn:Hi.
  - destruct (search_line l [] i Hl Hi) as [_ Hs].
    pose proof (find_Some_length _ _ _ Hi) as Hlen.
    rewrite Hs, expand_plain by done. cbn [mbind option_bind].
    rewrite drop_all, sub_loop_nil. cbn [mbind option_bind].
    by rewrite app_nil_r.
  - unfold Re.search. by rewrite Hi.
Qed.

(** [re.sub] works line by line. *)
Lemma sub_loop_lines fuel t (ls : list str) :
  BACKSLASH ∉ t -> Forall (fun l => NL ∉ l) ls ->
  length (join NL ls) < fuel ->
  Re.sub_loop fuel t (join NL ls) = Some (join NL (map (rewrite_line t) ls)).
Proof.
  intros Ht Hls. revert fuel.
  induction Hls as [|l ls Hl Hls IH]; intros fuel Hfuel.
  - simpl. apply sub_loop_nil.
  - destruct ls as [|l2 ls].
    + destruct fuel as [|fuel]; [lia|]. simpl join. simpl map.
      by apply sub_loop_last_line.
    + change (join NL (l :: l2 :: ls)) with (l ++ NL :: join NL (l2 :: ls))
        in *.
      change (join NL (map (rewrite_line t) (l :: l2 :: ls)))
        with (rewrite_line t l ++ NL :: join NL (map (rewrite_line t) (l2 :: ls))).
      rewrite length_app in Hfuel. simpl in Hfuel.
      unfold rewrite_line at 1.
      destruct (find Re.literal l) as [i|] eqn:Hi.
      * destruct fuel as [|fuel]; [lia|].
        rewrite (sub_loop_line_some fuel t l _ i) by done.
        rewrite IH by (simpl; lia). simpl. by rewrite <- app_assoc.
      * rewrite sub_loop_line_none by done.
        rewrite IH by (simpl; lia). reflexivity.
Qed.

Lemma split_no_sep_each c s : Forall (fun l => c ∉ l) (split c s).
Proof.
  induction s as [|a s IH]; simpl.
  - repeat constructor. by intros ?%elem_of_nil.
  - destruct (N.eqb_spec a c) as [->|Hne].
    + constructor; [by intros ?%elem_of_nil | done].
    + pose proof (split_nonempty c s).
      destruct (split c s) as [|piece pieces]; [done|].
      apply Forall_cons in IH as [Hp Hps]. constructor; [|done].
      by apply not_elem_of_cons.
Qed.

Lemma sub_plain t s :
  BACKSLASH ∉ t ->
  Re.sub t s = Some (join NL (map (rewrite_line t) (lines s))).
Proof.
  intros Ht. unfold Re.sub, lines. rewrite expand_plain by done.
  rewrite <- (join_split NL s) at 2.
  apply sub_loop_lines; [done | apply split_no_sep_each |].
  rewrite join_split. lia.
Qed.

End ReFacts.

(** ** Lines *)

Section LineFacts.

Implicit Types (s t l p a b : str) (c : N) (ls : list str).

Lemma split_app_sep c a b : split c (a ++ c :: b) = split c a ++ split c b.
Proof.
  induction a as [|x a IH]; simpl.
  - by rewrite N.eqb_refl.
  - destruct (x =? c)%N; [by rewrite IH|].
    rewrite IH. pose proof (split_nonempty c a).
    by destruct (split c a).
Qed.

Lemma split_join c ls :
  Forall (fun l => c ∉ l) ls -> ls <> [] -> split c (join c ls) = ls.
Proof.
  induction 1 as [|l ls Hl Hls IH]; intros Hne; [done|].
  destruct ls as [|l2 ls].
  - simpl. by apply split_no_sep.
  - change (join c (l :: l2 :: ls)) with (l ++ c :: join c (l2 :: ls)).
    rewrite split_app_sep, IH by done. by rewrite split_no_sep.
Qed.

Lemma lines_nonempty s : lines s <> [].
Proof. apply split_nonempty. Qed.

Lemma lines_no_NL s : Forall (fun l => NL ∉ l) (lines s).
Proof. apply split_no_sep_each. Qed.

Lemma join_lines s : join NL (lines s) = s.
Proof. apply join_split. Qed.

Lemma startswith_app_long p a b :
  length p <= length a -> startswith p (a ++ b) = startswith p a.
Proof.
  revert a. induction p as [|x p IH]; intros a Hlen; [done|].
  destruct a as [|y a]; simpl in *; [lia|].
  rewrite IH by lia. done.
Qed.

Lemma find_startswith p s : startswith p s = true -> find p s = Some 0.
Proof. intros H. destruct s; simpl; by rewrite H. Qed.

Lemma contains_intro p a b : contains p (a ++ p ++ b) = true.
Proof.
  unfold contains. induction a as [|y a IH].
  - simpl app. by rewrite find_startswith by apply startswith_app.
  - simpl app. rewrite find_cons.
    destruct (startswith p _); [done|].
    by destruct (find p (a ++ p ++ b)).
Qed.

(** [find] gives the first occurrence: it is found again when what
    follows it changes. *)
Lemma find_first p s i b :
  find p s = Some i -> find p (take i s ++ p ++ b) = Some i.
Proof.
  revert i. induction s as [|y s IH]; intros i.
  - simpl. destruct (startswith p []) eqn:E; [|done].
    intros [= <-]. simpl. by rewrite find_startswith by apply startswith_app.
  - rewrite find_cons. destruct (startswith p (y :: s)) eqn:E.
    + intros [= <-]. simpl. by rewrite find_startswith by apply startswith_app.
    + destruct (find p s) as [j|] eqn:F; [|done]. intros [= <-].
      change (take (S j) (y :: s) ++ p ++ b)
        with (y :: (take j s ++ p ++ b)).
      rewrite find_cons, (IH j eq_refl).
      pose proof (find_Some_split _ _ _ F) as Hs.
      pose proof (find_Some_length _ _ _ F) as Hlen.
      assert (startswith p (y :: take j s ++ p ++ b) = false) as ->; [|done].
      assert (y :: take j s ++ p ++ b = (y :: take j s ++ p) ++ b) as ->
        by (simpl; by rewrite <- app_assoc).
      assert (y :: s = (y :: take j s ++ p) ++ drop (j + length p) s) as Hys
        by (simpl; rewrite <- app_assoc; by rewrite <- Hs).
      rewrite Hys in E.
      rewrite startswith_app_long in E |- *;
        [done | |]; simpl; rewrite length_app; lia.
Qed.

Lemma rewrite_line_no_NL t l : NL ∉ t -> NL ∉ l -> NL ∉ rewrite_line t l.
Proof.
  intros Ht Hl. unfold rewrite_line.
  destruct (find Re.literal l) as [i|]; [|done].
  rewrite elem_of_app. intros [H|H]; [|done].
  apply Hl. by eapply subseteq_take.
Qed.

Lemma assigns_rewrite_line r l :
  assigns (rewrite_line (Re.literal ++ r) l) = assigns l.
Proof.
  unfold rewrite_line, assigns.
  destruct (find Re.literal l) as [i|] eqn:Hi; [|done].
  rewrite contains_intro. unfold contains. by rewrite Hi.
Qed.

Lemma rewrite_line_idem r l :
  rewrite_line (Re.literal ++ r) (rewrite_line (Re.literal ++ r) l)
  = rewrite_line (Re.literal ++ r) l.
Proof.
  unfold rewrite_line at 2 3.
  destruct (find Re.literal l) as [i|] eqn:Hi.
  - unfold rewrite_line. rewrite (find_first _ _ _ r Hi).
    pose proof (find_Some_length _ _ _ Hi) as Hlen.
    rewrite take_app_le by (rewrite length_take; lia).
    by rewrite take_take, Nat.min_id.
  - unfold rewrite_line. by rewrite Hi.
Qed.

Lemma rewrite_line_other t l : assigns l = false -> rewrite_line t l = l.
Proof.
  unfold assigns, contains, rewrite_line.
  by destruct (find Re.literal l).
Qed.

Lemma contains_lines s :
  contains Re.literal s = existsb assigns (lines s).
Proof.
  rewrite <- (join_lines s) at 1.
  apply contains_join; [apply literal_nonempty | apply literal_no_NL].
Qed.

(** The number of assigning lines, in terms of the lines. *)
Lemma search_Some_assignments s :
  (exists span, Re.search s = Some span) <-> 0 < assignments s.
Proof.
  assert (Re.search s <> None <-> 0 < assignments s) as H.
  { rewrite search_None, contains_lines. unfold assignments.
    induction (lines s) as [|l ls IH]; simpl; [split; [done | lia]|].
    destruct (assigns l) eqn:E.
    - rewrite filter_cons_True by done. simpl. split; [lia | done].
    - rewrite filter_cons_False by (by rewrite E). apply IH. }
  rewrite <- H. destruct (Re.search s); split; try done; eauto.
  - by intros [? ?].
Qed.

Lemma search_None_assignments s :
  Re.search s = None <-> Forall (fun l => assigns l = false) (lines s).
Proof.
  rewrite search_None, contains_lines.
  induction (lines s) as [|l ls IH]; simpl; [split; [constructor | done]|].
  rewrite orb_false_iff, IH, Forall_cons. done.
Qed.

End LineFacts.

(** ** Stripping and newline translation *)

Section StripFacts.

Implicit Types (s t l p a b : str) (c : N) (ls : list str).

Lemma lstrip_spec s :
  exists blank, s = blank ++ lstrip s
    /\ Forall (fun c => isspace c = true) blank.
Proof.
  induction s as [|x s (blank & Hs & Hblank)]; simpl.
  - by exists [].
  - destruct (isspace x) eqn:E.
    + exists (x :: blank). split; [simpl; congruence | by constructor].
    + by exists [].
Qed.

Lemma lstrip_head s c : head (lstrip s) = Some c -> isspace c = false.
Proof.
  induction s as [|x s IH]; simpl; [done|].
  destruct (isspace x) eqn:E; [done|]. simpl. congruence.
Qed.

(** [rstrip] removes a run of whitespace from the end, and all of it. *)
Lemma rstrip_spec s :
  exists blank, s = rstrip s ++ blank
    /\ Forall (fun c => isspace c = true) blank.
Proof.
  unfold rstrip. destruct (lstrip_spec (reverse s)) as (blank & Hs & Hblank).
  exists (reverse blank). split.
  - rewrite <- reverse_app, <- Hs. by rewrite reverse_involutive.
  - by apply Forall_reverse.
Qed.

Lemma rstrip_last s c : last (rstrip s) = Some c -> isspace c = false.
Proof.
  unfold rstrip. rewrite last_reverse. apply lstrip_head.
Qed.

Lemma contains_app_l p a b : contains p (a ++ b) = false -> contains p a = false.
Proof.
  intros H. destruct (contains p a) eqn:E; [|done].
  unfold contains in E. destruct (find p a) as [i|] eqn:F; [|done].
  apply find_Some_split in F. rewrite F, <- !app_assoc in H.
  by rewrite contains_intro in H.
Qed.

Lemma contains_rstrip p s : contains p s = false -> contains p (rstrip s) = false.
Proof.
  destruct (rstrip_spec s) as (blank & Hs & _). rewrite Hs at 1.
  apply contains_app_l.
Qed.

Lemma rstrip_subseteq s : rstrip s ⊆ s.
Proof.
  destruct (rstrip_spec s) as (blank & Hs & _). rewrite Hs at 2.
  intros x Hx. apply elem_of_app. by left.
Qed.

Lemma universal_newlines_no_CR s : CR ∉ universal_newlines s.
Proof.
  assert (forall n s, length s <= n -> CR ∉ universal_newlines s) as H.
  { clear s. induction n as [|n IH]; intros [|x s] Hlen; simpl in *;
      try (by intros ?%elem_of_nil); [lia|].
    destruct (N.eqb_spec x CR) as [->|Hx].
    - destruct s as [|d s].
      + intros [?|?%elem_of_nil]%elem_of_cons; done.
      + destruct (d =? NL)%N.
        * apply not_elem_of_cons. split; [done|]. apply IH. simpl in *. lia.
        * apply not_elem_of_cons. split; [done|]. apply IH. simpl in *. lia.
    - apply not_elem_of_cons. split; [done|]. apply IH. lia. }
  by apply (H (length s)).
Qed.

Lemma universal_newlines_id s : CR ∉ s -> universal_newlines s = s.
Proof.
  induction s as [|x s IH]; intros H; simpl; [done|].
  apply not_elem_of_cons in H as [Hx Hs].
  destruct (N.eqb_spec x CR); [congruence|]. by rewrite IH.
Qed.

Lemma elem_of_join_inv c x ls :
  x ∈ join c ls -> x = c \/ exists l, l ∈ ls /\ x ∈ l.
Proof.
  induction ls as [|l ls IH]; [by intros ?%elem_of_nil|].
  destruct ls as [|l2 ls].
  - simpl. intros H. right. exists l. split; [by left | done].
  - change (join c (l :: l2 :: ls)) with (l ++ c :: join c (l2 :: ls)).
    rewrite elem_of_app, elem_of_cons. intros [H|[H|H]].
    + right. exists l. split; [by left | done].
    + by left.
    + destruct (IH H) as [?|(l' & Hl' & Hx)]; [by left|].
      right. exists l'. split; [by right | done].
Qed.

Lemma elem_of_join c x l ls : l ∈ ls -> x ∈ l -> x ∈ join c ls.
Proof.
  induction ls as [|l1 ls IH]; [by intros ?%elem_of_nil|].
  intros Hl Hx. destruct ls as [|l2 ls].
  - by apply elem_of_cons in Hl as [->|?%elem_of_nil].
  - change (join c (l1 :: l2 :: ls)) with (l1 ++ c :: join c (l2 :: ls)).
    apply elem_of_app. apply elem_of_cons in Hl as [->|Hl]; [by left|].
    right. right. by apply IH.
Qed.

Lemma elem_of_lines x l s : l ∈ lines s -> x ∈ l -> x ∈ s.
Proof.
  intros Hl Hx. rewrite <- (join_lines s). by eapply elem_of_join.
Qed.

End StripFacts.

(** ** The update of the environment file *)

Section UpdateFacts.

Implicit Types (s t l key content data : str) (c : N) (ls : list str).

Lemma replacement_literal key :
  replacement key = Re.literal ++ QUOTE :: key ++ [QUOTE].
Proof. unfold replacement, Re.literal. reflexivity. Qed.

Lemma literal_no_BACKSLASH : BACKSLASH ∉ Re.literal.
Proof. apply (bool_decide_unpack _). vm_compute. reflexivity. Qed.

Lemma literal_no_CR : CR ∉ Re.literal.
Proof. apply (bool_decide_unpack _). vm_compute. reflexivity. Qed.

Lemma replacement_lacks c key :
  c ∉ Re.literal -> c <> QUOTE -> c ∉ key -> c ∉ replacement key.
Proof.
  intros Hl Hq Hk. rewrite replacement_literal.
  rewrite elem_of_app, elem_of_cons, elem_of_app, elem_of_cons.
  intros [?|[?|[?|[?|?%elem_of_nil]]]]; done.
Qed.

Lemma replacement_no_BACKSLASH key : BACKSLASH ∉ key -> BACKSLASH ∉ replacement key.
Proof. by apply replacement_lacks; [apply literal_no_BACKSLASH|]. Qed.

Lemma replacement_no_NL key : NL ∉ key -> NL ∉ replacement key.
Proof. by apply replacement_lacks; [apply literal_no_NL|]. Qed.

Lemma replacement_no_CR key : CR ∉ key -> CR ∉ replacement key.
Proof. by apply replacement_lacks; [apply literal_no_CR|]. Qed.

Lemma assigns_replacement key : assigns (replacement key) = true.
Proof.
  unfold assigns, contains. rewrite replacement_literal.
  by rewrite find_startswith by apply startswith_app.
Qed.

Lemma rewrite_line_replacement key :
  rewrite_line (replacement key) (replacement key) = replacement key.
Proof.
  unfold rewrite_line. rewrite replacement_literal at 2.
  by rewrite find_startswith by apply startswith_app.
Qed.

Lemma assigns_nil : assigns [] = false.
Proof. unfold assigns, contains. by rewrite (find_nil _ literal_nonempty). Qed.

(** With a match, and a key without backslash: every line is rewritten. *)
Lemma updated_match key content :
  BACKSLASH ∉ key -> 0 < assignments content ->
  updated key content
  = Some (join NL (map (rewrite_line (replacement key)) (lines content))).
Proof.
  intros Hkey [span Hs]%search_Some_assignments.
  unfold updated. rewrite Hs.
  by apply sub_plain, replacement_no_BACKSLASH.
Qed.

(** Without a match: the assignment is appended. *)
Lemma updated_no_match key content :
  assignments content = 0 ->
  updated key content
  = Some (rstrip content ++ [NL] ++ replacement key ++ [NL]).
Proof.
  intros H. unfold updated.
  destruct (Re.search content) as [span|] eqn:Hs; [|done].
  assert (0 < assignments content); [|lia].
  apply search_Some_assignments. eauto.
Qed.

Lemma lines_rewritten t content :
  NL ∉ t ->
  lines (join NL (map (rewrite_line t) (lines content)))
  = map (rewrite_line t) (lines content).
Proof.
  intros Ht. apply split_join.
  - apply Forall_map. eapply Forall_impl; [apply lines_no_NL|].
    intros l Hl. by apply rewrite_line_no_NL.
  - pose proof (lines_nonempty content). by destruct (lines content).
Qed.

Lemma lines_appended key content :
  NL ∉ key ->
  lines (rstrip content ++ [NL] ++ replacement key ++ [NL])
  = lines (rstrip content) ++ [replacement key; []].
Proof.
  intros Hkey. unfold lines.
  change (rstrip content ++ [NL] ++ replacement key ++ [NL])
    with (rstrip content ++ NL :: (replacement key ++ NL :: [])).
  rewrite !split_app_sep.
  rewrite (split_no_sep NL (replacement key)) by by apply replacement_no_NL.
  reflexivity.
Qed.

Lemma filter_map_length {A} (P : A -> Prop) `{forall x, Decision (P x)}
    (f : A -> A) (l : list A) :
  (forall x, P (f x) <-> P x) ->
  length (filter P (map f l)) = length (filter P l).
Proof.
  intros Hf. induction l as [|x l IH]; simpl; [done|].
  destruct (decide (P x)) as [Hx|Hx].
  - rewrite (filter_cons_True P (f x)) by by apply Hf.
    rewrite (filter_cons_True P x) by done. simpl. by rewrite IH.
  - rewrite (filter_cons_False P (f x)) by by rewrite Hf.
    by rewrite (filter_cons_False P x) by done.
Qed.

Lemma assignments_rstrip content :
  assignments content = 0 -> assignments (rstrip content) = 0.
Proof.
  intros H.
  destruct (Nat.eq_dec (assignments (rstrip content)) 0) as [|Hne]; [done|].
  assert (0 < assignments (rstrip content)) as [span Hs]%search_Some_assignments
    by lia.
  assert (Re.search content = None) as Hc.
  { destruct (Re.search content) as [sp|] eqn:E; [|done].
    assert (0 < assignments content); [|lia].
    apply search_Some_assignments. eauto. }
  apply search_None, contains_rstrip, search_None in Hc. congruence.
Qed.

(** The number of assigning lines after the update, for a key without
    backslash and line feed. *)
Lemma assignments_updated key content new_content :
  BACKSLASH ∉ key -> NL ∉ key ->
  updated key content = Some new_content ->
  assignments new_content = Nat.max 1 (assignments content).
Proof.
  intros Hb Hn Hu.
  destruct (Nat.eq_dec (assignments content) 0) as [H0|H0].
  - assert (new_content
            = rstrip content ++ [NL] ++ replacement key ++ [NL]) as ->
      by (rewrite updated_no_match in Hu by done; congruence).
    unfold assignments at 1. rewrite lines_appended by done.
    rewrite filter_app, length_app.
    fold (assignments (rstrip content)).
    rewrite assignments_rstrip by done.
    rewrite filter_cons_True by apply assigns_replacement.
    rewrite filter_cons_False by (by rewrite assigns_nil).
    rewrite H0. reflexivity.
  - assert (new_content
            = join NL (map (rewrite_line (replacement key)) (lines content)))
      as -> by (rewrite updated_match in Hu by (done || lia); congruence).
    unfold assignments at 1.
    rewrite lines_rewritten by by apply replacement_no_NL.
    rewrite filter_map_length.
    + fold (assignments content). lia.
    + intros l. rewrite replacement_literal.
      by rewrite assigns_rewrite_line.
Qed.

(** Updating again with the same key changes nothing more. *)
Lemma updated_fixed key content new_content :
  BACKSLASH ∉ key -> NL ∉ key ->
  updated key content = Some new_content ->
  updated key new_content = Some new_content.
Proof.
  intros Hb Hn Hu.
  pose proof (assignments_updated _ _ _ Hb Hn Hu) as Hcount.
  rewrite updated_match by (done || lia).
  f_equal. rewrite <- (join_lines new_content) at 2. f_equal.
  destruct (Nat.eq_dec (assignments content) 0) as [H0|H0].
  - assert (new_content
            = rstrip content ++ [NL] ++ replacement key ++ [NL]) as ->
      by (rewrite updated_no_match in Hu by done; congruence).
    rewrite lines_appended by done. rewrite map_app.
    assert (map (rewrite_line (replacement key)) (lines (rstrip content))
            = lines (rstrip content)) as ->.
    { pose proof (assignments_rstrip _ H0) as Hr.
      assert (Forall (fun l => assigns l = false) (lines (rstrip content)))
        as Hall.
      { apply search_None_assignments.
        destruct (Re.search (rstrip content)) as [sp|] eqn:E; [|done].
        assert (0 < assignments (rstrip content)); [|lia].
        apply search_Some_assignments. eauto. }
      induction Hall as [|l ls Hl Hls IH]; simpl; [done|].
      by rewrite rewrite_line_other, IH. }
    cbn [map]. rewrite rewrite_line_replacement.
    by rewrite rewrite_line_other by apply assigns_nil.
  - assert (new_content
            = join NL (map (rewrite_line (replacement key)) (lines content)))
      as -> by (rewrite updated_match in Hu by (done || lia); congruence).
    rewrite lines_rewritten by by apply replacement_no_NL.
    rewrite map_map. apply map_ext. intros l.
    rewrite replacement_literal. apply rewrite_line_idem.
Qed.

End UpdateFacts.

(** ** [update_env_file] in the world *)

Section UpdateRun.

Variable file__ : path.

Implicit Types (w : world) (key content data : str).

(** The run of [update_env_file] on an existing file, in terms of
    [updated]. *)
Lemma update_env_file_ok w key data new_content :
  files w !! ENV_FILE file__ = Some data ->
  updated key (universal_newlines data) = Some new_content ->
  exists w',
    update_env_file file__ key w = (Ret tt, w')
    /\ files w' = <[ENV_FILE file__ := new_content]> (files w)
    /\ clock w' = clock w /\ stdin w' = stdin w /\ browser w' = browser w.
Proof.
  intros Hfile Hnew. unfold updated in Hnew.
  unfold update_env_file, bind, read_text. rewrite Hfile.
  destruct (Re.search (universal_newlines data)) as [span|].
  - rewrite Hnew. eexists. split; [reflexivity|]. by repeat split.
  - injection Hnew as <-. eexists. split; [reflexivity|]. by repeat split.
Qed.

Lemma update_env_file_rejected w key data :
  files w !! ENV_FILE file__ = Some data ->
  updated key (universal_newlines data) = None ->
  update_env_file file__ key w = (Raise (Exception "re.error"), w).
Proof.
  intros Hfile Hnew. unfold updated in Hnew.
  unfold update_env_file, bind, read_text. rewrite Hfile.
  destruct (Re.search (universal_newlines data)) as [span|]; [|done].
  by rewrite Hnew.
Qed.

Lemma updated_plain key content :
  BACKSLASH ∉ key -> exists new_content, updated key content = Some new_content.
Proof.
  intros Hkey. destruct (Nat.eq_dec (assignments content) 0) as [H0|H0].
  - rewrite updated_no_match by done. eauto.
  - rewrite updated_match by (done || lia). eauto.
Qed.

(** A character that neither the text nor the replacement holds is not in
    the new text. *)
Lemma updated_lacks c key content new_content :
  c <> NL -> c ∉ content -> c ∉ replacement key -> BACKSLASH ∉ key ->
  updated key content = Some new_content -> c ∉ new_content.
Proof.
  intros Hc Hcontent Hrep Hkey Hu.
  destruct (Nat.eq_dec (assignments content) 0) as [H0|H0].
  - rewrite updated_no_match in Hu by done.
    assert (new_content = rstrip content ++ [NL] ++ replacement key ++ [NL])
      as -> by congruence.
    rewrite !elem_of_app, !elem_of_cons.
    intros [H|[[H|H%elem_of_nil]|[H|[H|H%elem_of_nil]]]]; try done.
    by apply Hcontent, rstrip_subseteq.
  - rewrite updated_match in Hu by (done || lia).
    assert (new_content
            = join NL (map (rewrite_line (replacement key)) (lines content)))
      as -> by congruence.
    intros [H|(l' & Hl' & Hx)]%elem_of_join_inv; [done|].
    apply list_elem_of_fmap in Hl' as (l & -> & Hl).
    unfold rewrite_line in Hx. destruct (find Re.literal l) as [i|].
    + apply elem_of_app in Hx as [Hx|Hx]; [|done].
      apply Hcontent. eapply elem_of_lines; [done|]. by eapply subseteq_take.
    + apply Hcontent. by eapply elem_of_lines.
Qed.

End UpdateRun.

(** ** The update: claims *)









(** C9, as amended.  For a key without backslash, without line feed and
    without carriage return, a second update with the same key leaves the
    environment file as the first update made it. *)
Theorem update_env_file_idempotent (file__ : path) (w : world)
    (new_api_key : str) :
  is_Some (files w !! ENV_FILE file__) ->
  BACKSLASH ∉ new_api_key -> NL ∉ new_api_key -> CR ∉ new_api_key ->
  exists w1 w2,
    update_env_file file__ new_api_key w = (Ret tt, w1)
    /\ update_env_file file__ new_api_key w1 = (Ret tt, w2)
    /\ files w2 = files w1.
Proof.
  intros [data Hfile] Hb Hn Hc.
  destruct (updated_plain new_api_key (universal_newlines data) Hb)
    as [new_content Hu].
  destruct (update_env_file_ok file__ w new_api_key data new_content Hfile Hu)
    as (w1 & Hrun1 & Hfiles1 & _).
  assert (files w1 !! ENV_FILE file__ = Some new_content) as Hfile1
    by (rewrite Hfiles1; apply lookup_insert_eq).
  assert (CR ∉ new_content) as Hcr.
  { eapply updated_lacks; [| apply universal_newlines_no_CR | | done | done].
    - done.
    - by apply replacement_no_CR. }
  assert (updated new_api_key (universal_newlines new_content)
          = Some new_content) as Hu1.
  { rewrite universal_newlines_id by done. by eapply updated_fixed. }
  destruct (update_env_file_ok file__ w1 new_api_key new_content new_content
              Hfile1 Hu1) as (w2 & Hrun2 & Hfiles2 & _).
  exists w1, w2. split; [done|]. split; [done|].
  rewrite Hfiles2, Hfiles1. apply insert_insert_eq.
Qed.

Lemma update_env_file_idempotent_witness :
  exists w1 w2,
    update_env_file sample_file sample_key (env_world env_one [])
    = (Ret tt, w1)
    /\ update_env_file sample_file sample_key w1 = (Ret tt, w2)
    /\ files w2 = files w1.
Proof.
  apply (update_env_file_idempotent sample_file (env_world env_one [])
           sample_key).
  - exists env_one. apply lookup_singleton_eq.
  - apply (bool_decide_unpack _). vm_compute. reflexivity.
  - apply (bool_decide_unpack _). vm_compute. reflexivity.
  - apply (bool_decide_unpack _). vm_compute. reflexivity.
Defined.

(** C9 as stated fails for a key that holds a line feed (and no
    backslash): the second update matches the first of the two lines that
    the first update wrote, and writes the second line once more.  The
    same happens for a key that holds a carriage return, which the second
    update reads as a line feed. *)
Lemma update_env_file_idempotent_counterexample :
  let w := env_world (lit "NEXT_PUBLIC_SUPABASE_ANON_KEY=old") [] in
  let r1 := update_env_file sample_file two_line_key w in
  let r2 := update_env_file sample_file two_line_key (snd r1) in
  (BACKSLASH ∉ two_line_key)
  /\ fst r1 = Ret tt /\ fst r2 = Ret tt
  /\ files (snd r1) !! ENV_FILE sample_file
     = Some (lit "NEXT_PUBLIC_SUPABASE_ANON_KEY=" ++ [QUOTE] ++ lit "a"
             ++ [NL] ++ lit "b" ++ [QUOTE])
  /\ files (snd r2) !! ENV_FILE sample_file
     = Some (lit "NEXT_PUBLIC_SUPABASE_ANON_KEY=" ++ [QUOTE] ++ lit "a"
             ++ [NL] ++ lit "b" ++ [QUOTE] ++ [NL] ++ lit "b" ++ [QUOTE])
  /\ files (snd r2) <> files (snd r1)
  /\ (let key := lit "a" ++ [CR] ++ lit "b" in
      let r1' := update_env_file sample_file key w in
      let r2' := update_env_file sample_file key (snd r1') in
      (BACKSLASH ∉ key) /\ (NL ∉ key)
      /\ files (snd r1') !! ENV_FILE sample_file
         = Some (lit "NEXT_PUBLIC_SUPABASE_ANON_KEY=" ++ [QUOTE] ++ lit "a"
                 ++ [CR] ++ lit "b" ++ [QUOTE])
      /\ files (snd r2') !! ENV_FILE sample_file
         = Some (lit "NEXT_PUBLIC_SUPABASE_ANON_KEY=" ++ [QUOTE] ++ lit "a"
                 ++ [CR] ++ lit "b" ++ [QUOTE] ++ [NL] ++ lit "b"
                 ++ [QUOTE])).
Proof.
  cbv zeta. split; [apply (bool_decide_unpack _); vm_compute; reflexivity|].
  split; [vm_compute; reflexivity|]. split; [vm_compute; reflexivity|].
  split; [vm_compute; reflexivity|]. split; [vm_compute; reflexivity|].
  split.
  - intros H. apply (f_equal (fun m => m !! ENV_FILE sample_file)) in H.
    vm_compute in H. discriminate.
  - split; [apply (bool_decide_unpack _); vm_compute; reflexivity|].
    split; [apply (bool_decide_unpack _); vm_compute; reflexivity|].
    split; vm_compute; reflexivity.
Qed.

(** A key without backslash is written as it is: with a match, the new
    text is the old one with every line rewritten. *)
Lemma update_env_file_rewrites (file__ : path) (w : world)
    (data new_api_key : str) :
  files w !! ENV_FILE file__ = Some data ->
  BACKSLASH ∉ new_api_key ->
  0 < assignments (universal_newlines data) ->
  exists w',
    update_env_file file__ new_api_key w = (Ret tt, w')
    /\ files w'
       = <[ENV_FILE file__ :=
             join NL (map (rewrite_line (replacement new_api_key))
                        (lines (universal_newlines data)))]> (files w).
Proof.
  intros Hfile Hb Hsome.
  destruct (update_env_file_ok file__ w new_api_key data _ Hfile
              (updated_match _ _ Hb Hsome)) as (w' & Hrun & Hfiles & _).
  by exists w'.
Qed.

(** C3: the claim holds for keys without backslash
    ([update_env_file_rewrites]), but the code breaks it for the others,
    which [validate_api_key] lets through.  Here the key holds a backslash
    followed by n: [re.sub] reads the two characters as an escape, and the
    file gets a line feed in their place, so that the assignment line is
    not the one the claim describes.  A key in which a backslash is
    followed by the letter q makes [re.sub] raise, and the file is not
    updated at all. *)
Theorem update_env_file_backslash_key :
  validate_api_key escape_key = (true, lit "Valid")
  /\ (let r := update_env_file sample_file escape_key (env_world env_one []) in
      fst r = Ret tt
      /\ files (snd r) !! ENV_FILE sample_file
         = Some (lit "A=1" ++ [NL]
                 ++ lit "NEXT_PUBLIC_SUPABASE_ANON_KEY=" ++ [QUOTE]
                 ++ lit "eyJ" ++ [NL; DOT] ++ replicate 48 (chr "a") ++ [DOT]
                 ++ replicate 48 (chr "b") ++ [QUOTE] ++ [NL]
                 ++ lit "B=2" ++ [NL])
      /\ files (snd r) !! ENV_FILE sample_file
         <> Some (lit "A=1" ++ [NL]
                  ++ lit "NEXT_PUBLIC_SUPABASE_ANON_KEY=" ++ [QUOTE]
                  ++ escape_key ++ [QUOTE] ++ [NL] ++ lit "B=2" ++ [NL]))
  /\ validate_api_key bad_escape_key = (true, lit "Valid")
  /\ update_env_file sample_file bad_escape_key (env_world env_one [])
     = (Raise (Exception "re.error"), env_world env_one []).
Proof.
  split; [vm_compute; reflexivity|]. split; [cbv zeta|].
  - split; [vm_compute; reflexivity|]. split; [vm_compute; reflexivity|].
    vm_compute. discriminate.
  - split; vm_compute; reflexivity.
Qed.

(** ** The backup *)

Section BackupFacts.

Variable file__ : path.

(** The name of the backup: that of the environment file, then
    [.backup.] and the time. *)
Lemma backup_file_name (now : Z) :
  Pathlib.with_suffix (ENV_FILE file__)
    (lit ".local.backup." ++ u8 (pretty now))
  = PROJECT_DIR file__ ++ [lit ".env.local.backup." ++ u8 (pretty now)].
Proof.
  unfold ENV_FILE, Pathlib.joinpath, Pathlib.with_suffix, Pathlib.suffix,
    Pathlib.name.
  rewrite last_snoc, removelast_last. reflexivity.
Qed.

Lemma backup_file_other (now : Z) :
  PROJECT_DIR file__ ++ [lit ".env.local.backup." ++ u8 (pretty now)]
  <> ENV_FILE file__.
Proof.
  unfold ENV_FILE, Pathlib.joinpath. intros H.
  apply app_inj_tail in H as [_ H].
  apply (f_equal length) in H. rewrite length_app in H. simpl in H. lia.
Qed.

Lemma create_backup_missing (w : world) :
  files w !! ENV_FILE file__ = None ->
  create_backup file__ w
  = (Raise (SystemExit 1),
     set_stdout (stdout w ++ [env_not_found (ENV_FILE file__)]) w).
Proof.
  intros Hfile. unfold create_backup, bind, exists_. rewrite Hfile.
  by rewrite bool_decide_eq_false_2 by (by intros [? ?]).
Qed.

Lemma create_backup_ok (w : world) (data : str) :
  files w !! ENV_FILE file__ = Some data ->
  let backup_file :=
    PROJECT_DIR file__
    ++ [lit ".env.local.backup." ++ u8 (pretty (clock w))] in
  exists w',
    create_backup file__ w = (Ret backup_file, w')
    /\ files w' = <[backup_file := universal_newlines data]> (files w)
    /\ stdin w' = stdin w /\ browser w' = browser w.
Proof.
  intros Hfile backup_file. eexists.
  unfold create_backup, bind, exists_, time_now, read_text, write_text,
    print, ret.
  rewrite Hfile, bool_decide_eq_true_2 by eauto.
  cbn [negb files set_files set_stdout clock]. cbv beta iota zeta.
  rewrite Hfile. cbn [files set_files set_stdout clock].
  rewrite backup_file_name. fold backup_file.
  split; [reflexivity|]. split; [reflexivity|]. split; reflexivity.
Qed.

End BackupFacts.

(** C6, as amended.  Without environment file, [create_backup] leaves
    with [sys.exit(1)], a non-zero status, and the files are as they
    were.  With one, it writes one file and returns its path: the name is
    that of the environment file followed by [.backup.] and the current
    Unix time; the content is the text of the environment file as
    [read_text] gives it, which is the content of that file when it holds
    no carriage return; the environment file and every other file are as
    they were.  The file written is a new one when no file of that name
    existed; otherwise it replaces the one that did. *)
Theorem create_backup_spec (file__ : path) (w : world) :
  let backup_file :=
    PROJECT_DIR file__
    ++ [lit ".env.local.backup." ++ u8 (pretty (clock w))] in
  (files w !! ENV_FILE file__ = None ->
   exists w',
     create_backup file__ w = (Raise (SystemExit 1), w')
     /\ exit_status (Raise (SystemExit 1)) <> 0%Z
     /\ files w' = files w)
  /\ (forall data,
        files w !! ENV_FILE file__ = Some data ->
        exists w',
          create_backup file__ w = (Ret backup_file, w')
          /\ files w' = <[backup_file := universal_newlines data]> (files w)
          /\ fst (read_text (ENV_FILE file__) w)
             = Ret (universal_newlines data)
          /\ fst (read_text backup_file w') = Ret (universal_newlines data)
          /\ (CR ∉ data -> files w' !! backup_file = Some data)
          /\ files w' !! ENV_FILE file__ = Some data
          /\ (forall p, p <> backup_file -> files w' !! p = files w !! p)
          /\ (files w !! backup_file = None ->
              dom (files w') = {[backup_file]} ∪ dom (files w)
              /\ backup_file ∉ dom (files w))
          /\ (is_Some (files w !! backup_file) ->
              dom (files w') = dom (files w))).
Proof.
  intros backup_file. split.
  - intros Hfile. eexists.
    split; [by apply create_backup_missing|]. split; [done|]. reflexivity.
  - intros data Hfile.
    pose proof (backup_file_other file__ (clock w)) as Hother.
    fold backup_file in Hother.
    destruct (create_backup_ok file__ w data Hfile) as (w' & Hrun & Hfiles & _).
    exists w'. split; [exact Hrun|]. split; [exact Hfiles|].
    unfold read_text. rewrite Hfile, Hfiles, lookup_insert_eq.
    rewrite (universal_newlines_id (universal_newlines data))
      by apply universal_newlines_no_CR.
    split; [reflexivity|]. split; [reflexivity|].
    split; [intros Hcr; by rewrite universal_newlines_id|].
    split; [by rewrite lookup_insert_ne|].
    split; [intros p Hp; by rewrite lookup_insert_ne|].
    split.
    + intros Hnew. split; [apply dom_insert_L|].
      by apply not_elem_of_dom.
    + intros Hold. rewrite dom_insert_L.
      apply subseteq_union_1_L, singleton_subseteq_l. by apply elem_of_dom.
Qed.

Lemma create_backup_spec_witness :
  exists w',
    create_backup sample_file (env_world env_one []) = (Ret sample_backup, w')
    /\ files w' !! sample_backup = Some env_one
    /\ files w' !! ENV_FILE sample_file = Some env_one
    /\ dom (files w') = {[sample_backup]} ∪ dom (files (env_world env_one [])).
Proof.
  destruct (create_backup_spec sample_file (env_world env_one [])) as [_ H].
  destruct (H env_one) as (w' & Hrun & _ & _ & _ & Hsame & Henv & _ & Hnew & _).
  { apply lookup_singleton_eq. }
  exists w'. split; [exact Hrun|]. split.
  - apply Hsame. apply (bool_decide_unpack _). vm_compute. reflexivity.
  - split; [exact Henv|]. apply Hnew. vm_compute. reflexivity.
Defined.

(** C6 as stated fails in two ways.  When a file with the name of the
    backup exists, no new file is created: that file is overwritten.  And
    a carriage return of the environment file is a line feed in the backup,
    whose content is then not that of the environment file. *)
Lemma create_backup_counterexample :
  (let w := sample_world {[ENV_FILE sample_file := env_one;
                           sample_backup := lit "an older backup"]} [] in
   let r := create_backup sample_file w in
   fst r = Ret sample_backup
   /\ size (files w) = 2 /\ size (files (snd r)) = 2
   /\ files w !! sample_backup = Some (lit "an older backup")
   /\ files (snd r) !! sample_backup = Some env_one)
  /\ (let w := env_world env_crlf [] in
      let r := create_backup sample_file w in
      fst r = Ret sample_backup
      /\ files (snd r) !! ENV_FILE sample_file = Some (lit "A=1" ++ [CR; NL])
      /\ files (snd r) !! sample_backup = Some (lit "A=1" ++ [NL])).
Proof.
  split; cbv zeta.
  - split; [vm_compute; reflexivity|]. split; [vm_compute; reflexivity|].
    split; [vm_compute; reflexivity|]. split; vm_compute; reflexivity.
  - split; [vm_compute; reflexivity|]. split; vm_compute; reflexivity.
Qed.

(** ** The extraction paths and [main] *)

Section MainFacts.

Variable file__ : path.

Implicit Types (w : world) (e : exn).

Lemma bind_Ret {A B} (m : M A) (k : A -> M B) w a w' :
  m w = (Ret a, w') -> bind m k w = k a w'.
Proof. intros H. unfold bind. by rewrite H. Qed.

Lemma bind_Raise {A B} (m : M A) (k : A -> M B) w e w' :
  m w = (Raise e, w') -> bind m k w = (Raise e, w').
Proof. intros H. unfold bind. by rewrite H. Qed.

Lemma validate_api_key_true (api_key : str) :
  fst (validate_api_key api_key) = true ->
  validate_api_key api_key = (true, lit "Valid").
Proof.
  intros H. pose proof (validate_api_key_snd _ H) as Hs.
  destruct (validate_api_key api_key). simpl in *. congruence.
Qed.

(** What the automated path takes has the shape that validation wants. *)
Lemma scan_elements_valid (elements : list element) (api_key : str) :
  scan_elements elements = Ret (Some api_key) ->
  validate_api_key api_key = (true, lit "Valid").
Proof.
  induction elements as [|[t| |] rest IH]; cbn [scan_elements];
    [done| |done|done].
  cbv zeta.
  destruct (startswith (lit "eyJ") (strip t)) eqn:Hp; cbn [andb]; [|done].
  destruct (Nat.ltb_spec 100 (length (strip t))) as [Hlen|Hlen]; [|done].
  destruct (Nat.eqb_spec (length (split DOT (strip t))) 3) as [Hparts|];
    [|done].
  intros [= <-]. apply validate_api_key_shape; [done | done | lia].
Qed.

Lemma scan_selectors_valid (b : chrome) (sels : list str) (api_key : str) :
  scan_selectors b sels = Some api_key ->
  validate_api_key api_key = (true, lit "Valid").
Proof.
  induction sels as [|sel rest IH]; cbn [scan_selectors]; [done|].
  destruct (find_elements b sel) as [elements|]; [|done].
  destruct (scan_elements elements) as [[k|]|] eqn:E; [|done|done].
  intros [= <-]. by eapply scan_elements_valid.
Qed.

(** The automated path returns a valid key or nothing; the one exception
    that leaves it is the interrupt of the operator at the login prompt. *)
Lemma try_selenium_extraction_outcome w :
  match fst (try_selenium_extraction w) with
  | Ret (Some api_key) => validate_api_key api_key = (true, lit "Valid")
  | Ret None => True
  | Raise e => e = KeyboardInterrupt
  end.
Proof.
  unfold try_selenium_extraction, input.
  unfold bind, driver, try_except, try_finally, print, ret, raise.
  destruct (selenium_installed (browser w)); [|done]. cbn [negb].
  cbv beta iota zeta.
  destruct (chrome_starts (browser w)); [|done]. cbv beta iota zeta.
  destruct (page_opens (browser w)); cbv beta iota zeta;
    [|by destruct (chrome_quits (browser w))].
  destruct (scan_selectors (browser w) selectors) as [k|] eqn:Hscan;
    destruct (contains _ (current_url (browser w))
              || contains _ (current_url (browser w)));
    cbv beta iota zeta; cbn [stdin set_stdout];
    try destruct (stdin w) as [|[t|] rest]; cbv beta iota zeta;
    destruct (chrome_quits (browser w)); cbn [fst]; try done;
    by eapply scan_selectors_valid.
Qed.

(** One round of the prompt loop. *)
Lemma prompt_round_outcome w :
  match fst (prompt_round w) with
  | Ret (Some api_key) => validate_api_key api_key = (true, lit "Valid")
  | Ret None => length (stdin (snd (prompt_round w))) < length (stdin w)
  | Raise e => e = KeyboardInterrupt \/ e = Exception "EOFError"
  end.
Proof.
  unfold prompt_round, input. unfold bind, print, ret.
  cbn [stdin set_stdout]. destruct (stdin w) as [|[t|] rest]; cbn [fst].
  - by right.
  - cbv beta iota zeta.
    destruct (validate_api_key (strip t)) as [valid message] eqn:Hv.
    destruct valid; cbn [fst snd stdin set_stdout set_stdin].
    + apply validate_api_key_true. by rewrite Hv.
    + simpl. lia.
  - by left.
Qed.

Lemma prompt_loop_unfold (rounds : nat) :
  prompt_loop rounds
  = bind prompt_round
      (fun r => match r with
                | Some api_key => ret api_key
                | None =>
                  match rounds with
                  | 0 => raise (Exception "EOFError")
                  | S rounds' => prompt_loop rounds'
                  end
                end).
Proof. by destruct rounds. Qed.

(** The manual path returns a valid key, unless the operator interrupts
    it or the input ends. *)
Lemma prompt_loop_outcome (rounds : nat) w :
  match fst (prompt_loop rounds w) with
  | Ret api_key => validate_api_key api_key = (true, lit "Valid")
  | Raise e => e = KeyboardInterrupt \/ e = Exception "EOFError"
  end.
Proof.
  revert w. induction rounds as [|rounds IH]; intros w;
    pose proof (prompt_round_outcome w) as Hround;
    rewrite prompt_loop_unfold;
    destruct (prompt_round w) as [[[k|]|e] w'] eqn:E; cbn [fst] in Hround;
    rewrite ?(bind_Ret _ _ _ _ _ E), ?(bind_Raise _ _ _ _ _ E); try done.
  - by right.
  - apply IH.
Qed.

(** The loop never runs out of rounds: with at least as many rounds as
    there are answers, their number does not matter. *)
Lemma prompt_loop_enough (rounds rounds' : nat) w :
  length (stdin w) <= rounds -> length (stdin w) <= rounds' ->
  prompt_loop rounds w = prompt_loop rounds' w.
Proof.
  revert rounds' w.
  induction rounds as [|rounds IH]; intros [|rounds'] w Hlen Hlen';
    [done| | |];
    pose proof (prompt_round_outcome w) as Hround.
  - rewrite (prompt_loop_unfold 0), (prompt_loop_unfold (S rounds')).
    destruct (prompt_round w) as [[[k|]|e] w'] eqn:E; cbn [fst snd] in Hround;
      rewrite ?(bind_Ret _ _ _ _ _ E), ?(bind_Raise _ _ _ _ _ E);
      try done; lia.
  - rewrite (prompt_loop_unfold 0), (prompt_loop_unfold (S rounds)).
    destruct (prompt_round w) as [[[k|]|e] w'] eqn:E; cbn [fst snd] in Hround;
      rewrite ?(bind_Ret _ _ _ _ _ E), ?(bind_Raise _ _ _ _ _ E);
      try done; lia.
  - rewrite (prompt_loop_unfold (S rounds)), (prompt_loop_unfold (S rounds')).
    destruct (prompt_round w) as [[[k|]|e] w'] eqn:E; cbn [fst snd] in Hround;
      rewrite ?(bind_Ret _ _ _ _ _ E), ?(bind_Raise _ _ _ _ _ E);
      try done.
    apply IH; lia.
Qed.

Lemma manual_extraction_outcome w :
  match fst (manual_extraction w) with
  | Ret api_key => validate_api_key api_key = (true, lit "Valid")
  | Raise e => e = KeyboardInterrupt \/ e = Exception "EOFError"
  end.
Proof.
  unfold manual_extraction, bind, print. apply prompt_loop_outcome.
Qed.

(** [update_env_file] raises nothing but an [Exception]. *)
Lemma update_env_file_raises (api_key : str) w e :
  fst (update_env_file file__ api_key w) = Raise e -> exists c, e = Exception c.
Proof.
  unfold update_env_file, bind, read_text, write_text, print, ret, raise.
  destruct (files w !! ENV_FILE file__) as [data|]; cbn [fst];
    [|intros [= <-]; eauto].
  destruct (Re.search (universal_newlines data)); cbv beta iota zeta;
    [|done].
  destruct (Re.sub _ _); cbn [fst]; [done|]. intros [= <-]. eauto.
Qed.

(** The second half of [main]: a key that fails the final validation
    ends the process with status 1; a valid key never does. *)
Lemma finish_invalid (api_key : str) w :
  fst (validate_api_key api_key) = false ->
  finish file__ api_key w
  = (Raise (SystemExit 1),
     set_stdout
       (stdout w ++ [final_validation_failed (snd (validate_api_key api_key))])
       w).
Proof.
  intros H. unfold finish.
  destruct (validate_api_key api_key) as [valid message]. simpl in H.
  subst valid. reflexivity.
Qed.

Lemma finish_valid (api_key : str) w e :
  fst (validate_api_key api_key) = true ->
  fst (finish file__ api_key w) = Raise e -> exists c, e = Exception c.
Proof.
  intros H. unfold finish.
  destruct (validate_api_key api_key) as [valid message]. simpl in H.
  subst valid. cbn [negb]. unfold bind at 1, ret at 1.
  unfold bind at 1, print at 1. unfold bind at 1, print at 1.
  cbv beta iota zeta.
  set (w1 := set_stdout _ _).
  pose proof (update_env_file_raises api_key w1 e) as Hu.
  unfold bind. destruct (update_env_file file__ api_key w1) as [[[]|e'] w2];
    cbn [fst] in *; [done | exact Hu].
Qed.

(** The manual path, then the second half of [main]. *)
Lemma fallback_no_SystemExit w code :
  fst (bind (bind (print falling_back) (fun _ => manual_extraction))
         (finish file__) w)
  <> Raise (SystemExit code).
Proof.
  pose (w1 := set_stdout (stdout w ++ [falling_back]) w).
  assert (print falling_back w = (Ret tt, w1)) as Hp by reflexivity.
  pose proof (manual_extraction_outcome w1) as Hm.
  destruct (manual_extraction w1) as [[k|e] w2] eqn:Em; cbn [fst] in Hm.
  - assert (bind (print falling_back) (fun _ => manual_extraction) w
            = (Ret k, w2)) as H by (by rewrite (bind_Ret _ _ _ _ _ Hp)).
    rewrite (bind_Ret _ _ _ _ _ H). intros Hf.
    apply finish_valid in Hf as [c Hc]; [done | by rewrite Hm].
  - assert (bind (print falling_back) (fun _ => manual_extraction) w
            = (Raise e, w2)) as H by (by rewrite (bind_Ret _ _ _ _ _ Hp)).
    rewrite (bind_Raise _ _ _ _ _ H). cbn [fst].
    by destruct Hm as [-> | ->].
Qed.

(** [main] leaves with [sys.exit] in one case only: the environment file
    is missing (and the code is 1). *)
Lemma main_SystemExit w code :
  fst (main file__ w) = Raise (SystemExit code) ->
  files w !! ENV_FILE file__ = None /\ code = 1%Z.
Proof.
  unfold main.
  pose (w1 := set_stdout (stdout w ++ [banner PROJECT_REF DASHBOARD_URL]) w).
  assert (print (banner PROJECT_REF DASHBOARD_URL) w = (Ret tt, w1)) as Hp
    by reflexivity.
  rewrite (bind_Ret _ _ _ _ _ Hp).
  destruct (files w !! ENV_FILE file__) as [data|] eqn:Hfile.
  - assert (files w1 !! ENV_FILE file__ = Some data) as Hfile1 by done.
    destruct (create_backup_ok file__ w1 data Hfile1) as (w2 & Hb & _).
    rewrite (bind_Ret _ _ _ _ _ Hb).
    pose proof (try_selenium_extraction_outcome w2) as Hs.
    destruct (try_selenium_extraction w2) as [[found|e] w3] eqn:Es;
      cbn [fst] in Hs.
    + rewrite (bind_Ret _ _ _ _ _ Es).
      destruct found as [k|]; [destruct (falsy k) eqn:Hk|].
      * intros H. by apply fallback_no_SystemExit in H.
      * unfold bind at 1, ret. intros Hf.
        apply finish_valid in Hf as [c Hc]; [done | by rewrite Hs].
      * intros H. by apply fallback_no_SystemExit in H.
    + rewrite (bind_Raise _ _ _ _ _ Es). cbn [fst]. by subst e.
  - assert (files w1 !! ENV_FILE file__ = None) as Hfile1 by done.
    rewrite (bind_Raise _ _ _ _ _ (create_backup_missing file__ w1 Hfile1)).
    cbn [fst]. by intros [= <-].
Qed.

(** The prompt loop is the search for the first valid answer. *)
Lemma prompt_loop_answers (rounds : nat) w :
  length (stdin w) <= rounds ->
  fst (prompt_loop rounds w) = first_valid_answer (stdin w).
Proof.
  revert w. induction rounds as [|rounds IH]; intros w Hlen;
    rewrite prompt_loop_unfold; unfold bind, prompt_round at 1, input;
    unfold bind, print, ret; cbn [stdin set_stdout];
    destruct (stdin w) as [|[t|] rest] eqn:Hin; simpl in Hlen;
    try lia; try reflexivity; cbv beta iota zeta;
    cbn [first_valid_answer];
    destruct (validate_api_key (strip t)) as [[] message];
    cbn [fst]; try reflexivity.
  apply IH. cbn [stdin set_stdout set_stdin]. lia.
Qed.

Lemma manual_extraction_answers w :
  fst (manual_extraction w) = first_valid_answer (stdin w).
Proof.
  unfold manual_extraction, bind, print.
  by apply (prompt_loop_answers _ (set_stdout _ w)).
Qed.





End MainFacts.

(** ** The whole run *)

Section RunFacts.

Variable file__ : path.

Implicit Types (w : world) (argv : list str).

Lemma dunder_main_help argv w :
  argv !! 1 = Some (lit "--help") \/ argv !! 1 = Some (lit "-h") ->
  dunder_main file__ argv w
  = (Raise (SystemExit 0), set_stdout (stdout w ++ [usage]) w).
Proof.
  intros H. unfold dunder_main.
  assert (1 < length argv) as Hlen
    by (destruct H as [H|H]; by apply lookup_lt_Some in H).
  apply Nat.ltb_lt in Hlen. rewrite Hlen.
  rewrite bool_decide_eq_true_2; [done|].
  destruct H as [-> | ->]; [by left | right; by left].
Qed.

Lemma dunder_main_other argv w :
  argv !! 1 <> Some (lit "--help") -> argv !! 1 <> Some (lit "-h") ->
  dunder_main file__ argv w
  = match main file__ w with
    | (Raise KeyboardInterrupt, w') =>
      (Raise (SystemExit 0), set_stdout (stdout w' ++ [cancelled]) w')
    | (Raise (Exception c), w') =>
      (Raise (SystemExit 1),
       set_stdout (stdout w' ++ [unexpected_error (Exception c)]) w')
    | r => r
    end.
Proof.
  intros H1 H2. unfold dunder_main.
  rewrite bool_decide_eq_false_2.
  - rewrite andb_false_r.
    by destruct (main file__ w) as [[[]|[code| |c]] w'].
  - intros [?|[?|?%elem_of_nil]%elem_of_cons]%elem_of_cons; done.
Qed.

(** The block ends normally or with [SystemExit]. *)
Lemma dunder_main_outcome argv w :
  fst (dunder_main file__ argv w) = Ret tt
  \/ exists code, fst (dunder_main file__ argv w) = Raise (SystemExit code).
Proof.
  destruct (decide (argv !! 1 = Some (lit "--help"))) as [H1|H1];
    [right; exists 0%Z; by rewrite dunder_main_help by by left|].
  destruct (decide (argv !! 1 = Some (lit "-h"))) as [H2|H2];
    [right; exists 0%Z; by rewrite dunder_main_help by by right|].
  rewrite dunder_main_other by done.
  destruct (main file__ w) as [[[]|[code| |c]] w']; cbn [fst]; eauto.
Qed.

End RunFacts.

(** C8. A key that the automated path returns is a valid one, and so is
    a key that the manual path returns: that path goes through the
    answers of the operator up to the first valid one.  Hence the final
    validation of [main] never fails: when [main] leaves with [sys.exit],
    it is the exit of [create_backup] on a missing environment file, which
    comes before any extraction. *)
Theorem extracted_key_valid (file__ : path) (w : world) :
  (forall api_key w',
     try_selenium_extraction w = (Ret (Some api_key), w') ->
     validate_api_key api_key = (true, lit "Valid"))
  /\ (forall api_key w',
        manual_extraction w = (Ret api_key, w') ->
        validate_api_key api_key = (true, lit "Valid"))
  /\ fst (manual_extraction w) = first_valid_answer (stdin w)
  /\ (forall code,
        fst (main file__ w) = Raise (SystemExit code) ->
        files w !! ENV_FILE file__ = None
        /\ main file__ w
           = (Raise (SystemExit 1),
              set_stdout
                (stdout w ++ [banner PROJECT_REF DASHBOARD_URL;
                              env_not_found (ENV_FILE file__)]) w)).
Proof.
  split; [|split; [|split]].
  - intros api_key w' H.
    pose proof (try_selenium_extraction_outcome w) as Hs.
    by rewrite H in Hs.
  - intros api_key w' H.
    pose proof (manual_extraction_outcome w) as Hm.
    by rewrite H in Hm.
  - apply manual_extraction_answers.
  - intros code [Hfile _]%main_SystemExit. split; [done|].
    unfold main.
    pose (w1 := set_stdout (stdout w ++ [banner PROJECT_REF DASHBOARD_URL]) w).
    assert (print (banner PROJECT_REF DASHBOARD_URL) w = (Ret tt, w1)) as Hp
      by reflexivity.
    rewrite (bind_Ret _ _ _ _ _ Hp).
    assert (files w1 !! ENV_FILE file__ = None) as Hfile1 by done.
    rewrite (bind_Raise _ _ _ _ _ (create_backup_missing file__ w1 Hfile1)).
    unfold w1, set_stdout. cbn [files clock stdin stdout browser].
    by rewrite <- app_assoc.
Qed.

Lemma extracted_key_valid_witness :
  validate_api_key sample_key = (true, lit "Valid").
Proof.
  destruct (extracted_key_valid sample_file
              (env_world env_one patient_operator)) as (_ & Hmanual & _ & _).
  apply (Hmanual sample_key
           (snd (manual_extraction (env_world env_one patient_operator)))).
  vm_compute. reflexivity.
Defined.


(** * Further properties *)

(** ** Validation *)

(** X1. The checks are ordered: a non-empty string that does not start
    with [eyJ] is rejected with the reason of the prefix rule, whatever
    its dots and its length; the empty string is rejected as empty. *)
Theorem validate_api_key_prefix_reason (api_key : str) :
  api_key <> [] ->
  ~ (exists rest, api_key = lit "eyJ" ++ rest) ->
  validate_api_key api_key = (false, lit "JWT tokens should start with 'eyJ'")
  /\ validate_api_key [] = (false, lit "API key is empty").
Proof.
  intros Hne Hprefix. split; [|reflexivity].
  rewrite <- startswith_spec in Hprefix.
  apply not_true_is_false in Hprefix.
  unfold validate_api_key. rewrite Hprefix.
  destruct api_key; [done | reflexivity].
Qed.

Lemma validate_api_key_prefix_reason_witness :
  validate_api_key (lit "abc.def")
  = (false, lit "JWT tokens should start with 'eyJ'").
Proof.
  refine (proj1 (validate_api_key_prefix_reason (lit "abc.def") _ _)).
  - discriminate.
  - intros [rest H]. vm_compute in H. discriminate.
Defined.

(** X2. A string that starts with [eyJ] and splits into three parts but
    has fewer than 100 characters is rejected with the reason
    ["API key seems too short"]. *)
Theorem validate_api_key_short_reason (api_key : str) :
  (exists rest, api_key = lit "eyJ" ++ rest) ->
  length (split DOT api_key) = 3 ->
  length api_key < 100 ->
  validate_api_key api_key = (false, lit "API key seems too short").
Proof.
  intros Hprefix%startswith_spec Hparts Hlen.
  assert (DOT ∈ api_key) as Hdot%contains_single.
  { destruct (decide (DOT ∈ api_key)) as [|Hno]; [done|].
    rewrite (split_no_sep _ _ Hno) in Hparts. discriminate. }
  assert (falsy api_key = false) as Hfalsy by by destruct api_key.
  apply Nat.ltb_lt in Hlen.
  unfold validate_api_key. rewrite Hfalsy, Hprefix, Hdot, Hparts, Hlen.
  reflexivity.
Qed.

Lemma validate_api_key_short_reason_witness :
  validate_api_key (lit "eyJ.a.b") = (false, lit "API key seems too short").
Proof.
  refine (validate_api_key_short_reason (lit "eyJ.a.b") _ _ _).
  - exists (lit ".a.b"). vm_compute. reflexivity.
  - vm_compute. reflexivity.
  - vm_compute. lia.
Defined.

(** X3. The strings that [validate_api_key] accepts are exactly those of
    the form [eyJ] ++ p1 ++ "." ++ p2 ++ "." ++ p3 with no dot in p1, p2
    and p3 and at least 100 characters in all: two dots, no more. *)
Theorem validate_api_key_accepts_form (api_key : str) :
  fst (validate_api_key api_key) = true <->
  exists p1 p2 p3,
    api_key = lit "eyJ" ++ p1 ++ [DOT] ++ p2 ++ [DOT] ++ p3
    /\ (DOT ∉ p1) /\ (DOT ∉ p2) /\ (DOT ∉ p3)
    /\ 95 <= length p1 + length p2 + length p3.
Proof.
  assert (DOT ∉ lit "eyJ") as HeyJ
    by (apply (bool_decide_unpack _); vm_compute; reflexivity).
  split.
  - rewrite validate_api_key_fst, !andb_true_iff, negb_true_iff.
    rewrite Nat.eqb_eq, negb_true_iff, Nat.ltb_ge.
    intros ((((_ & Hprefix) & _) & Hparts) & Hlen).
    pose proof (join_split DOT api_key) as Hjoin.
    pose proof (split_no_sep_each DOT api_key) as Hfree.
    destruct (split DOT api_key) as [|a [|b [|c [|d l]]]]; try discriminate.
    apply Forall_cons in Hfree as [Ha Hfree].
    apply Forall_cons in Hfree as [Hb Hfree].
    apply Forall_cons in Hfree as [Hc _].
    change (join DOT [a; b; c]) with (a ++ DOT :: b ++ DOT :: c) in Hjoin.
    rewrite <- Hjoin, (startswith_app_sep _ _ _ _ HeyJ) in Hprefix.
    apply startswith_spec in Hprefix as [p1 ->].
    exists p1, b, c. split; [by rewrite <- Hjoin, <- app_assoc|].
    split; [intros H; apply Ha, elem_of_app; by right|].
    split; [done|]. split; [done|].
    rewrite <- Hjoin in Hlen. rewrite !length_app in Hlen. simpl in Hlen.
    rewrite length_app in Hlen. simpl in Hlen. lia.
  - intros (p1 & p2 & p3 & -> & H1 & H2 & H3 & Hlen).
    rewrite validate_api_key_shape; [done | apply startswith_app | |].
    + replace (lit "eyJ" ++ p1 ++ [DOT] ++ p2 ++ [DOT] ++ p3)
        with ((lit "eyJ" ++ p1) ++ DOT :: (p2 ++ DOT :: p3))
        by (by rewrite <- app_assoc).
      rewrite !split_app_sep.
      rewrite (split_no_sep DOT (lit "eyJ" ++ p1)),
        (split_no_sep DOT p2), (split_no_sep DOT p3); try done.
      intros [?|?]%elem_of_app; done.
    + rewrite !length_app. simpl. lia.
Qed.

Lemma validate_api_key_accepts_form_witness :
  fst (validate_api_key sample_key) = true.
Proof.
  apply (validate_api_key_accepts_form sample_key).
  exists [], (replicate 48 (chr "a")), (replicate 48 (chr "b")).
  split; [vm_compute; reflexivity|].
  split; [by intros ?%elem_of_nil|].
  split; [apply (bool_decide_unpack _); vm_compute; reflexivity|].
  split; [apply (bool_decide_unpack _); vm_compute; reflexivity|].
  vm_compute. lia.
Defined.

(** ** The scan of the page *)

Section ScanFacts.

Implicit Types (t text : str) (elements : list element) (b : chrome).

(** The loop of lines 128-135, one element at a time. *)
Lemma scan_elements_text t elements :
  scan_elements (Text t :: elements)
  = if accepts (strip t) then Ret (Some (strip t))
    else scan_elements elements.
Proof.
  cbn [scan_elements]. cbv zeta. unfold accepts.
  destruct (startswith (lit "eyJ") (strip t)); [|done].
  destruct (100 <? length (strip t)); [|done].
  by destruct (length (split DOT (strip t)) =? 3).
Qed.

Lemma scan_selectors_cons b selector sels :
  scan_selectors b (selector :: sels)
  = match find_elements b selector with
    | None => scan_selectors b sels
    | Some elements =>
      match scan_elements elements with
      | Ret (Some api_key) => Some api_key
      | _ => scan_selectors b sels
      end
    end.
Proof.
  cbn [scan_selectors]. destruct (find_elements b selector); [|done].
  by destruct (scan_elements l) as [[?|]|].
Qed.

End ScanFacts.

(** X4. The automated path wants more than 100 characters where
    [validate_api_key] wants at least 100: a key of exactly 100
    characters is taken when the operator pastes it, and passed over when
    it is the text of an element of the page. *)
Theorem scan_elements_hundred (t : str) (elements : list element) :
  fst (validate_api_key (strip t)) = true ->
  length (strip t) = 100 ->
  scan_elements (Text t :: elements) = scan_elements elements
  /\ first_valid_answer [Line t] = Ret (strip t).
Proof.
  intros Hvalid Hlen. split.
  - rewrite scan_elements_text. unfold accepts. rewrite Hlen.
    by rewrite andb_false_r.
  - cbn [first_valid_answer]. by rewrite Hvalid.
Qed.

Lemma scan_elements_hundred_witness :
  length edge_key = 100
  /\ scan_elements [Text edge_key] = Ret None
  /\ first_valid_answer [Line edge_key] = Ret edge_key.
Proof.
  split; [vm_compute; reflexivity|].
  destruct (scan_elements_hundred edge_key []) as [Hscan Hanswer].
  - vm_compute. reflexivity.
  - vm_compute. reflexivity.
  - split; [exact Hscan | exact Hanswer].
Defined.

(** X5. Among the elements of one selector the first whose stripped text
    is accepted wins, and the elements after it are not read.  An
    element that cannot be read before any accepted one ends the scan of
    the selector with an exception, whatever comes after it. *)
Theorem scan_elements_first (before : list str) (t : str)
    (after : list element) :
  Forall (fun u => accepts (strip u) = false) before ->
  (accepts (strip t) = true ->
   scan_elements ((Text <$> before) ++ Text t :: after)
   = Ret (Some (strip t)))
  /\ scan_elements ((Text <$> before) ++ Stale :: after)
     = Raise (Exception "WebDriverException")
  /\ scan_elements (Text <$> before) = Ret None.
Proof.
  induction 1 as [|u before Hu Hbefore IH].
  - split; [|done]. intros Ht. cbn [fmap list_fmap app].
    by rewrite scan_elements_text, Ht.
  - cbn [fmap list_fmap app]. fold (fmap (M:=list) Text before).
    by rewrite !scan_elements_text, !Hu.
Qed.

Lemma scan_elements_first_witness :
  scan_elements [Text (lit "anon"); Text (lit " " ++ sample_key);
                 Text odd_key]
  = Ret (Some sample_key)
  /\ scan_elements [Text (lit "anon"); Stale; Text sample_key]
     = Raise (Exception "WebDriverException").
Proof.
  destruct (scan_elements_first [lit "anon"] (lit " " ++ sample_key)
              [Text odd_key]) as (Hfirst & _ & _).
  { repeat constructor. }
  destruct (scan_elements_first [lit "anon"] sample_key [Text sample_key])
    as (_ & Hstale & _).
  { repeat constructor. }
  split; [|exact Hstale].
  assert (accepts (strip (lit " " ++ sample_key)) = true) as Haccepted
    by (vm_compute; reflexivity).
  etransitivity; [exact (Hfirst Haccepted)|].
  vm_compute. reflexivity.
Defined.

(** X6. The selectors are tried in their order: the key comes from the
    first selector that yields one; a selector whose call raises, one of
    whose elements cannot be read, or none of whose elements is accepted
    is passed over. *)
Theorem scan_selectors_first (b : chrome) (skipped : list str)
    (selector : str) (rest : list str) (elements : list element)
    (api_key : str) :
  Forall (yields_nothing b) skipped ->
  find_elements b selector = Some elements ->
  scan_elements elements = Ret (Some api_key) ->
  scan_selectors b (skipped ++ selector :: rest) = Some api_key
  /\ scan_selectors b skipped = None.
Proof.
  intros Hskipped Hfind Hscan.
  induction Hskipped as [|sel skipped Hsel Hskipped IH].
  - split; [|done]. cbn [app]. by rewrite scan_selectors_cons, Hfind, Hscan.
  - cbn [app]. rewrite !scan_selectors_cons. unfold yields_nothing in Hsel.
    destruct (find_elements b sel) as [els|]; [|done].
    by destruct (scan_elements els) as [[?|]|].
Qed.

Lemma scan_selectors_first_witness :
  scan_selectors (sample_chrome false true [Text sample_key]) selectors
  = Some sample_key.
Proof.
  refine (proj1 (scan_selectors_first
                   (sample_chrome false true [Text sample_key])
                   [lit "[data-testid*='anon']"; lit "[data-testid*='api-key']"]
                   (lit "code") [lit "pre"; lit ".api-key"; lit ".anon-key"]
                   [Text sample_key] sample_key _ _ _)).
  - repeat constructor.
  - reflexivity.
  - vm_compute. reflexivity.
Defined.

(** ** The automated path *)

(** X7. The automated path never fails the run and never touches a file:
    it returns a key or nothing, or is left by the interrupt of the
    operator; the files, the clock and the browser are as before; it
    reads at most one answer of the operator (at the login prompt).  When
    Selenium is missing, Chrome does not start or the page does not
    open, it returns nothing and reads no answer. *)
Theorem try_selenium_extraction_frame (w : world) :
  let r := try_selenium_extraction w in
  files (snd r) = files w /\ clock (snd r) = clock w
  /\ browser (snd r) = browser w
  /\ (stdin (snd r) = stdin w \/ exists a, stdin w = a :: stdin (snd r))
  /\ (forall c, fst r <> Raise (Exception c))
  /\ (forall code, fst r <> Raise (SystemExit code))
  /\ (selenium_installed (browser w) = false
      \/ chrome_starts (browser w) = false
      \/ page_opens (browser w) = false ->
      fst r = Ret None /\ stdin (snd r) = stdin w).
Proof.
  cbv zeta.
  unfold try_selenium_extraction, input.
  unfold bind, driver, try_except, try_finally, print, ret, raise.
  destruct (selenium_installed (browser w)); cbn [negb];
    [|by repeat split; eauto].
  cbv beta iota zeta.
  destruct (chrome_starts (browser w)); cbv beta iota zeta;
    [|by repeat split; eauto].
  destruct (page_opens (browser w)); cbv beta iota zeta;
    [|by destruct (chrome_quits (browser w)); repeat split; eauto].
  destruct (scan_selectors (browser w) selectors) as [k|];
    destruct (contains _ (current_url (browser w))
              || contains _ (current_url (browser w)));
    cbv beta iota zeta; cbn [stdin set_stdout];
    destruct (stdin w) as [|[t|] rest] eqn:Hin; cbv beta iota zeta;
    destruct (chrome_quits (browser w)); cbv beta iota zeta;
    cbn [fst snd files clock browser stdin set_stdout set_stdin];
    rewrite ?Hin;
    repeat split; try done; eauto;
    try (intros [?|[?|?]]; done);
    match goal with H : _ \/ _ |- _ => by destruct H as [?|[?|?]] end.
Qed.

Lemma try_selenium_extraction_frame_witness :
  fst (try_selenium_extraction (env_world env_one patient_operator))
  = Ret None
  /\ stdin (snd (try_selenium_extraction (env_world env_one patient_operator)))
     = patient_operator.
Proof.
  destruct (try_selenium_extraction_frame (env_world env_one patient_operator))
    as (_ & _ & _ & _ & _ & _ & H).
  apply H. by left.
Defined.

(** X8. When [driver.quit()] raises, the automated path returns nothing,
    even if the scan had found a key: the exception of the [finally]
    clause takes the place of the [return]. *)
Theorem try_selenium_extraction_quit_fails (w : world) :
  chrome_quits (browser w) = false ->
  fst (try_selenium_extraction w) = Ret None.
Proof.
  intros Hquit.
  unfold try_selenium_extraction, input.
  unfold bind, driver, try_except, try_finally, print, ret, raise.
  destruct (selenium_installed (browser w)); cbn [negb]; [|done].
  cbv beta iota zeta.
  destruct (chrome_starts (browser w)); cbv beta iota zeta; [|done].
  rewrite Hquit.
  destruct (page_opens (browser w)); cbv beta iota zeta; [|done].
  destruct (scan_selectors (browser w) selectors) as [k|];
    destruct (contains _ (current_url (browser w))
              || contains _ (current_url (browser w)));
    cbv beta iota zeta; cbn [stdin set_stdout];
    try destruct (stdin w) as [|[t|] rest]; cbv beta iota zeta; done.
Qed.

Lemma try_selenium_extraction_quit_fails_witness :
  fst (try_selenium_extraction
         (chrome_world (sample_chrome false true [Text sample_key]) []))
  = Ret (Some sample_key)
  /\ fst (try_selenium_extraction
            (chrome_world (sample_chrome false false [Text sample_key]) []))
     = Ret None.
Proof.
  split; [vm_compute; reflexivity|].
  by apply try_selenium_extraction_quit_fails.
Defined.

(** ** The manual path *)

Section ManualFacts.

Implicit Types (w : world) (s t k : str).

(** One round on an answer that is a line. *)
Lemma prompt_round_line w t rest :
  stdin w = Line t :: rest ->
  exists w1,
    prompt_round w
    = (Ret (if fst (validate_api_key (strip t)) then Some (strip t)
            else None), w1)
    /\ stdin w1 = rest /\ files w1 = files w
    /\ stdout w1
       = stdout w ++ (if fst (validate_api_key (strip t)) then [prompt_key]
                      else rejection t).
Proof.
  intros Hin. unfold prompt_round, input. unfold bind, print, ret.
  cbn [stdin set_stdout]. rewrite Hin. cbv beta iota zeta.
  unfold rejection.
  destruct (validate_api_key (strip t)) as [[] message];
    cbn [fst snd]; eexists; (split; [reflexivity|]);
    cbn [files stdin stdout set_stdin set_stdout];
    rewrite <- ?app_assoc; done.
Qed.

Lemma prompt_loop_trace (bad : list str) : forall rounds w good rest,
  length (stdin w) <= rounds ->
  stdin w = (Line <$> bad) ++ Line good :: rest ->
  Forall (fun t => fst (validate_api_key (strip t)) = false) bad ->
  fst (validate_api_key (strip good)) = true ->
  exists w',
    prompt_loop rounds w = (Ret (strip good), w')
    /\ stdin w' = rest /\ files w' = files w
    /\ stdout w' = stdout w ++ (bad ≫= rejection) ++ [prompt_key].
Proof.
  induction bad as [|t bad IH]; intros rounds w good rest Hlen Hin Hbad Hgood.
  - destruct (prompt_round_line w good rest Hin) as (w1 & Hr & H1 & H2 & H3).
    rewrite Hgood in Hr, H3.
    exists w1. rewrite prompt_loop_unfold, (bind_Ret _ _ _ _ _ Hr).
    by repeat split.
  - apply Forall_cons in Hbad as [Ht Hbad].
    rewrite fmap_cons, <- app_comm_cons in Hin.
    destruct (prompt_round_line w t _ Hin) as (w1 & Hr & H1 & H2 & H3).
    rewrite Ht in Hr, H3.
    destruct rounds as [|rounds];
      [rewrite Hin in Hlen; cbn [length] in Hlen; lia|].
    destruct (IH rounds w1 good rest) as (w' & Hloop & H1' & H2' & H3');
      try done.
    { rewrite H1. rewrite Hin in Hlen. cbn [length] in Hlen. lia. }
    exists w'. rewrite prompt_loop_unfold, (bind_Ret _ _ _ _ _ Hr).
    split; [done|]. split; [done|]. split; [congruence|].
    rewrite H3', H3. cbn [mbind list_bind]. by rewrite <- !app_assoc.
Qed.

Lemma first_valid_answer_stripped (answers : list keyboard) k :
  first_valid_answer answers = Ret k -> exists t, k = strip t.
Proof.
  induction answers as [|[t|] answers IH]; cbn [first_valid_answer];
    [done| |done].
  destruct (fst (validate_api_key (strip t))); [|done].
  intros [= <-]. eauto.
Qed.

Lemma scan_elements_stripped (elements : list element) k :
  scan_elements elements = Ret (Some k) -> exists t, k = strip t.
Proof.
  induction elements as [|[t| |] elements IH]; [done| |done|done].
  rewrite scan_elements_text. destruct (accepts (strip t)); [|done].
  intros [= <-]. eauto.
Qed.

Lemma scan_selectors_stripped (b : chrome) (sels : list str) k :
  scan_selectors b sels = Some k -> exists t, k = strip t.
Proof.
  induction sels as [|sel sels IH]; [done|].
  rewrite scan_selectors_cons.
  destruct (find_elements b sel) as [elements|]; [|done].
  destruct (scan_elements elements) as [[k'|]|] eqn:E; [|done|done].
  intros [= <-]. by eapply scan_elements_stripped.
Qed.

Lemma rstrip_head s c : head (rstrip s) = Some c -> head s = Some c.
Proof.
  destruct (rstrip_spec s) as (blank & Hs & _). rewrite Hs at 2.
  by destruct (rstrip s).
Qed.

Lemma lstrip_id s :
  (forall c, head s = Some c -> isspace c = false) -> lstrip s = s.
Proof.
  destruct s as [|x s]; [done|]. intros H. simpl.
  by rewrite (H x eq_refl).
Qed.

Lemma rstrip_id s :
  (forall c, last s = Some c -> isspace c = false) -> rstrip s = s.
Proof.
  intros H. unfold rstrip. rewrite lstrip_id.
  - apply reverse_involutive.
  - intros c. rewrite head_reverse. apply H.
Qed.

(** A stripped text has no whitespace at its ends, and stripping it again
    changes nothing. *)
Lemma strip_ends s :
  (forall c, head (strip s) = Some c -> isspace c = false)
  /\ (forall c, last (strip s) = Some c -> isspace c = false)
  /\ strip (strip s) = strip s.
Proof.
  assert (forall c, head (strip s) = Some c -> isspace c = false) as Hhead.
  { intros c Hc. unfold strip in Hc. apply rstrip_head in Hc.
    by eapply lstrip_head. }
  assert (forall c, last (strip s) = Some c -> isspace c = false) as Hlast.
  { intros c. unfold strip. apply rstrip_last. }
  split; [done|]. split; [done|].
  unfold strip at 1. by rewrite (lstrip_id _ Hhead), (rstrip_id _ Hlast).
Qed.

End ManualFacts.

(** X9. The manual path goes through the answers in their order: for
    each answer that fails the validation it prints the prompt, the
    reason of the failure and the invitation to try again; it returns the
    first answer that passes, stripped, and leaves the answers after it
    unread.  It changes no file. *)
Theorem manual_extraction_trace (w : world) (bad : list str) (good : str)
    (rest : list keyboard) :
  stdin w = (Line <$> bad) ++ Line good :: rest ->
  Forall (fun t => fst (validate_api_key (strip t)) = false) bad ->
  fst (validate_api_key (strip good)) = true ->
  exists w',
    manual_extraction w = (Ret (strip good), w')
    /\ stdin w' = rest
    /\ files w' = files w
    /\ stdout w'
       = stdout w ++ manual_guide DASHBOARD_URL :: (bad ≫= rejection)
         ++ [prompt_key].
Proof.
  intros Hin Hbad Hgood. unfold manual_extraction, bind, print.
  pose (w1 := set_stdout (stdout w ++ [manual_guide DASHBOARD_URL]) w).
  destruct (prompt_loop_trace bad (length (stdin w1)) w1 good rest)
    as (w' & Hloop & H1 & H2 & H3); try done.
  exists w'. split; [exact Hloop|]. split; [done|]. split; [done|].
  rewrite H3. unfold w1. cbn [stdout set_stdout]. by rewrite <- app_assoc.
Qed.

Lemma manual_extraction_trace_witness :
  exists w',
    manual_extraction (env_world env_one (patient_operator ++ [Interrupt]))
    = (Ret sample_key, w')
    /\ stdin w' = [Interrupt]
    /\ stdout w'
       = [manual_guide DASHBOARD_URL; prompt_key;
          validation_error (lit "JWT tokens should start with 'eyJ'");
          try_again; prompt_key].
Proof.
  destruct (manual_extraction_trace
              (env_world env_one (patient_operator ++ [Interrupt]))
              [lit "abc.def"] (lit "  " ++ sample_key ++ lit " ") [Interrupt])
    as (w' & Hrun & Hin & _ & Hout).
  - reflexivity.
  - repeat constructor.
  - vm_compute. reflexivity.
  - exists w'. split; [|split; [exact Hin|]].
    + etransitivity; [exact Hrun|]. f_equal.
    + etransitivity; [exact Hout|]. vm_compute. reflexivity.
Defined.

(** X10. A key that either path returns has no whitespace at its
    beginning nor at its end: it is a stripped text. *)
Theorem extracted_key_stripped (w : world) (api_key : str) (w' : world) :
  try_selenium_extraction w = (Ret (Some api_key), w')
  \/ manual_extraction w = (Ret api_key, w') ->
  (forall c, head api_key = Some c -> isspace c = false)
  /\ (forall c, last api_key = Some c -> isspace c = false)
  /\ strip api_key = api_key.
Proof.
  intros H.
  assert (exists t, api_key = strip t) as [t ->]; [|apply strip_ends].
  destruct H as [H|H].
  - revert H. unfold try_selenium_extraction, input.
    unfold bind, driver, try_except, try_finally, print, ret, raise.
    destruct (selenium_installed (browser w)); cbn [negb]; [|done].
    cbv beta iota zeta.
    destruct (chrome_starts (browser w)); cbv beta iota zeta; [|done].
    destruct (page_opens (browser w)); cbv beta iota zeta;
      [|by destruct (chrome_quits (browser w))].
    destruct (scan_selectors (browser w) selectors) as [k|] eqn:Hscan;
      destruct (contains _ (current_url (browser w))
                || contains _ (current_url (browser w)));
      cbv beta iota zeta; cbn [stdin set_stdout];
      try destruct (stdin w) as [|[u|] rest]; cbv beta iota zeta;
      destruct (chrome_quits (browser w)); cbv beta iota zeta;
      intros [= <- <-] || intros [=];
      by eapply scan_selectors_stripped.
  - eapply first_valid_answer_stripped.
    by rewrite <- manual_extraction_answers, H.
Qed.

Lemma extracted_key_stripped_witness :
  strip sample_key = sample_key.
Proof.
  refine (proj2 (proj2 (extracted_key_stripped
                          (env_world env_one patient_operator) sample_key
                          (snd (manual_extraction
                                  (env_world env_one patient_operator)))
                          _))).
  right. vm_compute. reflexivity.
Defined.

(** ** The failures of the update *)

(** X11. [update_env_file] fails before it has printed or written
    anything in two cases.  When the environment file is missing, it
    raises [FileNotFoundError], and the file is not created.  When a line
    of the file assigns the variable and [re.sub] rejects the replacement,
    it raises the exception of [re.sub]; this happens only for a key that
    holds a backslash.  In both cases the files and the output are as
    they were. *)
Theorem update_env_file_failure (file__ : path) (w : world) (key : str) :
  (files w !! ENV_FILE file__ = None ->
   update_env_file file__ key w
   = (Raise (Exception "FileNotFoundError"), w))
  /\ (forall data,
        files w !! ENV_FILE file__ = Some data ->
        0 < assignments (universal_newlines data) ->
        Re.sub (replacement key) (universal_newlines data) = None ->
        (exists c, update_env_file file__ key w = (Raise (Exception c), w))
        /\ BACKSLASH ∈ key).
Proof.
  split.
  - intros Hfile. unfold update_env_file, bind, read_text. by rewrite Hfile.
  - intros data Hfile [span Hs]%search_Some_assignments Hsub.
    assert (updated key (universal_newlines data) = None) as Hnew
      by (unfold updated; by rewrite Hs).
    split.
    + eexists. by apply (update_env_file_rejected file__ w key data).
    + destruct (decide (BACKSLASH ∈ key)) as [|Hkey]; [done|].
      destruct (updated_plain key (universal_newlines data) Hkey)
        as [new Hsome]. congruence.
Qed.

Lemma update_env_file_failure_witness :
  (exists c,
     update_env_file sample_file bad_escape_key (env_world env_one [])
     = (Raise (Exception c), env_world env_one []))
  /\ BACKSLASH ∈ bad_escape_key.
Proof.
  destruct (update_env_file_failure sample_file (env_world env_one [])
              bad_escape_key) as (_ & H).
  apply (H env_one).
  - vm_compute. reflexivity.
  - vm_compute. lia.
  - vm_compute. reflexivity.
Defined.

(** ** The files after [main] *)

Section MainFrame.

Variable file__ : path.

Implicit Types (w : world) (e : exn) (key data : str).

Lemma bind_assoc {A B C} (m : M A) (f : A -> M B) (g : B -> M C) w :
  bind (bind m f) g w = bind m (fun a => bind (f a) g) w.
Proof. unfold bind. by destruct (m w) as [[a|e] w']. Qed.

(** [main] is the banner, the backup, the extraction and the second
    half. *)
Lemma main_unfold w :
  main file__ w
  = (print (banner PROJECT_REF DASHBOARD_URL) ;;
     _ <- create_backup file__ ;;
     api_key <- extraction ;;
     finish file__ api_key) w.
Proof.
  unfold main, extraction.
  pose (w1 := set_stdout (stdout w ++ [banner PROJECT_REF DASHBOARD_URL]) w).
  assert (print (banner PROJECT_REF DASHBOARD_URL) w = (Ret tt, w1)) as Hp
    by reflexivity.
  rewrite !(bind_Ret _ _ _ _ _ Hp).
  destruct (create_backup file__ w1) as [[p|e] w2] eqn:Hb;
    [|by rewrite !(bind_Raise _ _ _ _ _ Hb)].
  rewrite !(bind_Ret _ _ _ _ _ Hb). symmetry. apply bind_assoc.
Qed.

Lemma prompt_round_files w : files (snd (prompt_round w)) = files w.
Proof.
  unfold prompt_round, input. unfold bind, print, ret.
  cbn [stdin set_stdout]. destruct (stdin w) as [|[t|] rest]; try done.
  cbv beta iota zeta. by destruct (validate_api_key (strip t)) as [[] m].
Qed.

Lemma prompt_loop_files (rounds : nat) w :
  files (snd (prompt_loop rounds w)) = files w.
Proof.
  revert w. induction rounds as [|rounds IH]; intros w;
    rewrite prompt_loop_unfold; unfold bind;
    pose proof (prompt_round_files w) as Hr;
    destruct (prompt_round w) as [[[k|]|e] w1]; cbn [snd] in *; try done.
  by rewrite IH.
Qed.

Lemma manual_extraction_files w : files (snd (manual_extraction w)) = files w.
Proof.
  unfold manual_extraction, bind, print.
  by rewrite prompt_loop_files.
Qed.

Lemma try_selenium_extraction_files w :
  files (snd (try_selenium_extraction w)) = files w.
Proof.
  unfold try_selenium_extraction, input.
  unfold bind, driver, try_except, try_finally, print, ret, raise.
  destruct (selenium_installed (browser w)); cbn [negb]; [|done].
  cbv beta iota zeta.
  destruct (chrome_starts (browser w)); cbv beta iota zeta; [|done].
  destruct (page_opens (browser w)); cbv beta iota zeta;
    [|by destruct (chrome_quits (browser w))].
  destruct (scan_selectors (browser w) selectors) as [k|];
    destruct (contains _ (current_url (browser w))
              || contains _ (current_url (browser w)));
    cbv beta iota zeta; cbn [stdin set_stdout];
    try destruct (stdin w) as [|[t|] rest]; cbv beta iota zeta;
    by destruct (chrome_quits (browser w)).
Qed.

Lemma extraction_files w : files (snd (extraction w)) = files w.
Proof.
  unfold extraction, bind.
  pose proof (try_selenium_extraction_files w) as Hs.
  destruct (try_selenium_extraction w) as [[[k|]|e] w1]; cbn [snd] in Hs;
    [destruct (falsy k)| |]; try done; unfold print;
    by rewrite manual_extraction_files.
Qed.

(** The extraction returns a valid key, or is left by the interrupt of the
    operator or by the end of the input. *)
Lemma extraction_outcome w :
  match fst (extraction w) with
  | Ret key => validate_api_key key = (true, lit "Valid")
  | Raise e => e = KeyboardInterrupt \/ e = Exception "EOFError"
  end.
Proof.
  unfold extraction, bind.
  pose proof (try_selenium_extraction_outcome w) as Hs.
  destruct (try_selenium_extraction w) as [[[k|]|e] w1]; cbn [fst] in Hs;
    [destruct (falsy k)| |]; cbn [fst]; try done; try (by left);
    unfold print; apply manual_extraction_outcome.
Qed.

(** A failed update has changed nothing. *)
Lemma update_env_file_unchanged key w e w' :
  update_env_file file__ key w = (Raise e, w') ->
  w' = w
  /\ (files w !! ENV_FILE file__ = None \/ e = Exception "re.error").
Proof.
  destruct (files w !! ENV_FILE file__) as [data|] eqn:Hfile.
  - destruct (updated key (universal_newlines data)) as [new|] eqn:Hnew.
    + by destruct (update_env_file_ok file__ w key data new Hfile Hnew)
        as (w1 & -> & _).
    + rewrite (update_env_file_rejected file__ w key data Hfile Hnew).
      intros [= <- <-]. eauto.
  - unfold update_env_file, bind, read_text. rewrite Hfile.
    intros [= <- <-]. eauto.
Qed.

(** The second half of [main] on a valid key. *)
Lemma finish_update key w :
  fst (validate_api_key key) = true ->
  finish file__ key w
  = (update_env_file file__ key ;; print (success (ENV_FILE file__)))
      (set_stdout
         (stdout w ++ [validation_passed;
                       key_preview (take 20 key) (last_chars 20 key)]) w).
Proof.
  intros H. unfold finish.
  destruct (validate_api_key key) as [valid message]. simpl in H.
  subst valid. cbn [negb]. unfold bind at 1, ret at 1.
  unfold bind at 1, print at 1. unfold bind at 1, print at 1.
  cbv beta iota zeta. unfold set_stdout at 1 2.
  cbn [files clock stdin stdout browser set_stdout].
  by rewrite <- app_assoc.
Qed.

Lemma finish_ok key w data new :
  fst (validate_api_key key) = true ->
  files w !! ENV_FILE file__ = Some data ->
  updated key (universal_newlines data) = Some new ->
  exists w',
    finish file__ key w = (Ret tt, w')
    /\ files w' = <[ENV_FILE file__ := new]> (files w)
    /\ stdin w' = stdin w.
Proof.
  intros Hv Hfile Hnew. rewrite finish_update by done.
  set (w1 := set_stdout _ w).
  destruct (update_env_file_ok file__ w1 key data new Hfile Hnew)
    as (w2 & Hu & Hf & _ & Hin & _).
  rewrite (bind_Ret _ _ _ _ _ Hu). eexists. split; [reflexivity|].
  split; [exact Hf | exact Hin].
Qed.

Lemma finish_Raise key w e w' :
  finish file__ key w = (Raise e, w') ->
  files w' = files w
  /\ (fst (validate_api_key key) = false /\ e = SystemExit 1
      \/ fst (validate_api_key key) = true
         /\ (files w !! ENV_FILE file__ = None \/ e = Exception "re.error")).
Proof.
  destruct (fst (validate_api_key key)) eqn:Hv.
  - rewrite finish_update by done. set (w1 := set_stdout _ w).
    unfold bind.
    destruct (update_env_file file__ key w1) as [[[]|e1] w2] eqn:Hu; [done|].
    intros [= <- <-].
    apply update_env_file_unchanged in Hu as [-> Hu]. eauto.
  - rewrite finish_invalid by done. intros [= <- <-]. eauto.
Qed.

Lemma finish_Ret key w w' :
  finish file__ key w = (Ret tt, w') ->
  fst (validate_api_key key) = true
  /\ exists data new,
       files w !! ENV_FILE file__ = Some data
       /\ updated key (universal_newlines data) = Some new
       /\ files w' = <[ENV_FILE file__ := new]> (files w).
Proof.
  intros Hf.
  destruct (fst (validate_api_key key)) eqn:Hv;
    [|by rewrite finish_invalid in Hf by done].
  split; [done|].
  destruct (files w !! ENV_FILE file__) as [data|] eqn:Hfile.
  - destruct (updated key (universal_newlines data)) as [new|] eqn:Hnew.
    + destruct (finish_ok key w data new Hv Hfile Hnew) as (w1 & H1 & H2 & _).
      exists data, new. repeat split; try done. congruence.
    + rewrite finish_update in Hf by done.
      set (w1 := set_stdout _ w) in Hf.
      assert (files w1 !! ENV_FILE file__ = Some data) as Hfile1 by done.
      by rewrite (bind_Raise _ _ _ _ _
                    (update_env_file_rejected file__ w1 key data Hfile1 Hnew))
        in Hf.
  - rewrite finish_update in Hf by done. revert Hf.
    unfold bind at 1, update_env_file, bind at 1, read_text.
    cbn [files set_stdout]. by rewrite Hfile.
Qed.

(** [main] without environment file. *)
Lemma main_missing w :
  files w !! ENV_FILE file__ = None ->
  fst (main file__ w) = Raise (SystemExit 1)
  /\ files (snd (main file__ w)) = files w.
Proof.
  intros Hfile. rewrite main_unfold.
  pose (w1 := set_stdout (stdout w ++ [banner PROJECT_REF DASHBOARD_URL]) w).
  assert (print (banner PROJECT_REF DASHBOARD_URL) w = (Ret tt, w1)) as Hp
    by reflexivity.
  rewrite (bind_Ret _ _ _ _ _ Hp).
  assert (files w1 !! ENV_FILE file__ = None) as Hfile1 by done.
  by rewrite (bind_Raise _ _ _ _ _ (create_backup_missing file__ w1 Hfile1)).
Qed.

(** [main] with an environment file: the backup is taken, then come the
    extraction and the second half. *)
Lemma main_stages w data :
  files w !! ENV_FILE file__ = Some data ->
  exists w2,
    main file__ w = (api_key <- extraction ;; finish file__ api_key) w2
    /\ files w2
       = <[backup_at file__ (clock w) := universal_newlines data]> (files w)
    /\ stdin w2 = stdin w /\ browser w2 = browser w.
Proof.
  intros Hfile. rewrite main_unfold.
  pose (w1 := set_stdout (stdout w ++ [banner PROJECT_REF DASHBOARD_URL]) w).
  assert (print (banner PROJECT_REF DASHBOARD_URL) w = (Ret tt, w1)) as Hp
    by reflexivity.
  rewrite (bind_Ret _ _ _ _ _ Hp).
  assert (files w1 !! ENV_FILE file__ = Some data) as Hfile1 by done.
  destruct (create_backup_ok file__ w1 data Hfile1)
    as (w2 & Hb & Hf & Hin & Hbr).
  rewrite (bind_Ret _ _ _ _ _ Hb). exists w2. by repeat split.
Qed.

Lemma backup_at_other (now : Z) : backup_at file__ now <> ENV_FILE file__.
Proof. apply backup_file_other. Qed.

(** What [main] leaves when it does not end normally. *)
Lemma main_Raise w e w' :
  main file__ w = (Raise e, w') ->
  match files w !! ENV_FILE file__ with
  | None => e = SystemExit 1 /\ files w' = files w
  | Some data =>
    (e = KeyboardInterrupt \/ e = Exception "EOFError"
     \/ e = Exception "re.error")
    /\ files w'
       = <[backup_at file__ (clock w) := universal_newlines data]> (files w)
  end.
Proof.
  intros Hmain. destruct (files w !! ENV_FILE file__) as [data|] eqn:Hfile.
  - destruct (main_stages w data Hfile) as (w2 & Hm & Hf & _).
    rewrite Hm in Hmain. unfold bind in Hmain.
    pose proof (extraction_outcome w2) as Ho.
    pose proof (extraction_files w2) as He.
    destruct (extraction w2) as [[key|e1] w3]; cbn [fst snd] in Ho, He.
    + apply finish_Raise in Hmain as (Hf' & [[Hv _]|(_ & [Hnone| ->])]).
      * rewrite Ho in Hv. done.
      * rewrite He, Hf, lookup_insert_ne in Hnone
          by apply backup_at_other.
        congruence.
      * split; [eauto|]. congruence.
    + injection Hmain as <- <-. split; [|congruence].
      destruct Ho as [-> | ->]; eauto.
  - destruct (main_missing w Hfile) as [H1 H2].
    rewrite Hmain in H1, H2. cbn [fst snd] in H1, H2. split; congruence.
Qed.

(** What [main] leaves when it ends normally. *)
Lemma main_Ret w w' :
  main file__ w = (Ret tt, w') ->
  exists data key new,
    files w !! ENV_FILE file__ = Some data
    /\ validate_api_key key = (true, lit "Valid")
    /\ updated key (universal_newlines data) = Some new
    /\ files w'
       = <[ENV_FILE file__ := new]>
           (<[backup_at file__ (clock w) := universal_newlines data]>
              (files w)).
Proof.
  intros Hmain. destruct (files w !! ENV_FILE file__) as [data|] eqn:Hfile.
  - destruct (main_stages w data Hfile) as (w2 & Hm & Hf & _).
    rewrite Hm in Hmain. unfold bind in Hmain.
    pose proof (extraction_outcome w2) as Ho.
    pose proof (extraction_files w2) as He.
    destruct (extraction w2) as [[key|e1] w3]; cbn [fst snd] in Ho, He;
      [|done].
    apply finish_Ret in Hmain as (_ & data' & new & H1 & H2 & H3).
    rewrite He, Hf, lookup_insert_ne in H1 by apply backup_at_other.
    assert (data' = data) as -> by congruence.
    exists data, key, new. repeat split; try done. by rewrite H3, He, Hf.
  - destruct (main_missing w Hfile) as [H1 _]. by rewrite Hmain in H1.
Qed.

End MainFrame.

(** X13. When [main] ends normally, there was an environment file; its
    text as read is in the backup, and the environment file holds what the
    update makes of that text with a key that passes the validation.  No
    other file has changed. *)
Theorem main_success_files (file__ : path) (w w' : world) :
  main file__ w = (Ret tt, w') ->
  exists data key new,
    files w !! ENV_FILE file__ = Some data
    /\ validate_api_key key = (true, lit "Valid")
    /\ updated key (universal_newlines data) = Some new
    /\ files w' !! ENV_FILE file__ = Some new
    /\ files w' !! backup_at file__ (clock w) = Some (universal_newlines data)
    /\ (forall p, p <> ENV_FILE file__ -> p <> backup_at file__ (clock w) ->
                  files w' !! p = files w !! p).
Proof.
  intros (data & key & new & H1 & H2 & H3 & ->)%main_Ret.
  exists data, key, new. repeat split; try done.
  - by rewrite lookup_insert_eq.
  - rewrite lookup_insert_ne by (symmetry; apply backup_at_other).
    by rewrite lookup_insert_eq.
  - intros p Hp1 Hp2. by rewrite !lookup_insert_ne.
Qed.

Lemma main_success_files_witness :
  exists data key new,
    files (env_world env_one patient_operator) !! ENV_FILE sample_file
    = Some data
    /\ updated key (universal_newlines data) = Some new
    /\ files (snd (main sample_file (env_world env_one patient_operator)))
       !! ENV_FILE sample_file
       = Some new.
Proof.
  destruct (main_success_files sample_file
              (env_world env_one patient_operator)
              (snd (main sample_file (env_world env_one patient_operator))))
    as (data & key & new & H1 & _ & H3 & H4 & _).
  - vm_compute. reflexivity.
  - exists data, key, new. split; [exact H1|]. split; [exact H3 | exact H4].
Defined.

(** ** The whole run, again *)

Section RunFrame.

Variable file__ : path.

Implicit Types (w : world) (argv : list str).

(** A browser that cannot be had: the automated path returns nothing and
    reads nothing. *)
Lemma try_selenium_extraction_none w :
  selenium_installed (browser w) = false
  \/ chrome_starts (browser w) = false
  \/ page_opens (browser w) = false ->
  fst (try_selenium_extraction w) = Ret None
  /\ stdin (snd (try_selenium_extraction w)) = stdin w.
Proof.
  unfold try_selenium_extraction, input.
  unfold bind, driver, try_except, try_finally, print, ret, raise.
  destruct (selenium_installed (browser w)); cbn [negb]; [|done].
  cbv beta iota zeta.
  destruct (chrome_starts (browser w)); cbv beta iota zeta; [|done].
  destruct (page_opens (browser w)); cbv beta iota zeta;
    [|by destruct (chrome_quits (browser w))].
  intros [?|[?|?]]; done.
Qed.

Lemma update_env_file_stdout key w :
  exists more, stdout (snd (update_env_file file__ key w)) = stdout w ++ more.
Proof.
  unfold update_env_file, bind, read_text, write_text, print, ret, raise.
  destruct (files w !! ENV_FILE file__) as [data|]; cbn [snd];
    [|exists []; by rewrite app_nil_r].
  destruct (Re.search (universal_newlines data)); cbv beta iota zeta.
  - destruct (Re.sub _ _); cbn [snd stdout set_stdout set_files];
      [|exists []; by rewrite app_nil_r].
    eexists. by rewrite <- app_assoc.
  - cbn [snd stdout set_stdout set_files]. eexists. by rewrite <- app_assoc.
Qed.


(** When the automated path returns nothing, the answers that it left
    decide. *)
Lemma extraction_none w e :
  fst (try_selenium_extraction w) = Ret None ->
  first_valid_answer (stdin (snd (try_selenium_extraction w))) = Raise e ->
  fst (extraction w) = Raise e.
Proof.
  intros Hs Hans. unfold extraction, bind.
  destruct (try_selenium_extraction w) as [r w1]. cbn [fst snd] in Hs, Hans.
  subst r. unfold print.
  by rewrite manual_extraction_answers.
Qed.

End RunFrame.

(** X12. A run by hand that is cancelled leaves the environment file
    as it was.  With an environment file and without a browser (Selenium
    is missing, or Chrome does not start, or the page does not open), when
    the operator interrupts the prompt for the key, or the input ends,
    before any answer has passed the validation, [main] is left by that
    exception ([KeyboardInterrupt], [EOFError]); the backup has been
    written and no other file has changed. *)
Theorem main_cancelled_files (file__ : path) (w : world) (data : str)
    (e : exn) :
  files w !! ENV_FILE file__ = Some data ->
  selenium_installed (browser w) = false
  \/ chrome_starts (browser w) = false
  \/ page_opens (browser w) = false ->
  first_valid_answer (stdin w) = Raise e ->
  exists w',
    main file__ w = (Raise e, w')
    /\ (e = KeyboardInterrupt \/ e = Exception "EOFError")
    /\ files w'
       = <[backup_at file__ (clock w) := universal_newlines data]> (files w)
    /\ files w' !! ENV_FILE file__ = Some data.
Proof.
  intros Hfile Hbrowser Hans.
  destruct (main_stages file__ w data Hfile) as (w2 & -> & Hf2 & Hin2 & Hbr2).
  rewrite <- Hbr2 in Hbrowser.
  destruct (try_selenium_extraction_none w2 Hbrowser) as [Hs Hin3].
  assert (fst (extraction w2) = Raise e) as He.
  { apply extraction_none; [done|]. by rewrite Hin3, Hin2. }
  pose proof (extraction_files w2) as Hf3.
  pose proof (extraction_outcome w2) as Ho.
  unfold bind. destruct (extraction w2) as [r w3]. cbn [fst snd] in *.
  subst r. exists w3. split; [done|]. split; [done|].
  assert (files w3
          = <[backup_at file__ (clock w) := universal_newlines data]> (files w))
    as Hf by congruence.
  split; [done|].
  by rewrite Hf, lookup_insert_ne by apply backup_at_other.
Qed.

Lemma main_cancelled_files_witness :
  exists w',
    main sample_file (env_world env_one impatient_operator)
    = (Raise KeyboardInterrupt, w')
    /\ files w' !! ENV_FILE sample_file = Some env_one.
Proof.
  destruct (main_cancelled_files sample_file
              (env_world env_one impatient_operator) env_one
              KeyboardInterrupt) as (w' & Hmain & _ & _ & Henv).
  - vm_compute. reflexivity.
  - by left.
  - vm_compute. reflexivity.
  - by exists w'.
Defined.

(** X14. The exit status of a run is 0 or 1, and no run touches a file
    other than the environment file and the backup of its second. *)
Theorem run_status (file__ : path) (argv : list str) (w : world) :
  (fst (run file__ argv w) = 0 \/ fst (run file__ argv w) = 1)%Z
  /\ (forall p, p <> ENV_FILE file__ -> p <> backup_at file__ (clock w) ->
                files (snd (run file__ argv w)) !! p = files w !! p).
Proof.
  unfold run.
  destruct (decide (argv !! 1 = Some (lit "--help"))) as [H1|H1];
    [rewrite dunder_main_help by (by left); cbn [fst snd exit_status];
     split; eauto|].
  destruct (decide (argv !! 1 = Some (lit "-h"))) as [H2|H2];
    [rewrite dunder_main_help by (by right); cbn [fst snd exit_status];
     split; eauto|].
  rewrite dunder_main_other by done.
  destruct (main file__ w) as [[[]|e] w'] eqn:Hmain.
  - apply main_Ret in Hmain as (data & key & new & Hfile & _ & _ & Hf).
    cbn [fst snd exit_status]. split; [by left|].
    intros p Hp1 Hp2. by rewrite Hf, !lookup_insert_ne.
  - apply main_Raise in Hmain.
    destruct (files w !! ENV_FILE file__) as [data|] eqn:Hfile.
    + destruct Hmain as [He Hf].
      assert (forall p, p <> backup_at file__ (clock w) ->
                        files w' !! p = files w !! p) as Hother.
      { intros p Hp. by rewrite Hf, lookup_insert_ne. }
      destruct He as [-> | [-> | ->]]; cbn [fst snd exit_status files
                                              set_stdout];
        (split; [eauto|]); intros p _ Hp; by apply Hother.
    + destruct Hmain as [-> Hf]. cbn [fst snd exit_status].
      split; [by right|]. intros p _ _. by rewrite Hf.
Qed.

Lemma run_status_witness :
  files (snd (run sample_file sample_argv
                (env_world env_one patient_operator)))
  !! [lit "README"]
  = None.
Proof.
  destruct (run_status sample_file sample_argv
              (env_world env_one patient_operator)) as (_ & H).
  etransitivity; [apply H; vm_compute; discriminate|].
  vm_compute. reflexivity.
Defined.



(** ** The preview of the key *)

(** X16. The preview that the second half of [main] prints for a valid
    key shows its first 20 and its last 20 characters and nothing else: at
    least 60 characters of the key lie between the two and stay hidden.
    The preview is printed right after the message of the final
    validation, before the update is tried. *)
Theorem key_preview_hides (file__ : path) (key : str) (w : world) :
  fst (validate_api_key key) = true ->
  (exists hidden,
     key = take 20 key ++ hidden ++ last_chars 20 key
     /\ 60 <= length hidden)
  /\ exists more,
       stdout (snd (finish file__ key w))
       = stdout w
         ++ [validation_passed;
             key_preview (take 20 key) (last_chars 20 key)]
         ++ more.
Proof.
  intros Hv. split.
  - rewrite validate_api_key_fst in Hv.
    apply andb_true_iff in Hv as [_ Hlen].
    apply negb_true_iff, Nat.ltb_ge in Hlen.
    exists (take (length key - 40) (drop 20 key)). split.
    + unfold last_chars.
      replace (length key - 20) with (20 + (length key - 40)) by lia.
      by rewrite <- drop_drop, !take_drop.
    + rewrite length_take, length_drop. lia.
  - rewrite finish_update by done. set (w1 := set_stdout _ w).
    unfold bind.
    destruct (update_env_file_stdout file__ key w1) as [more Hmore].
    destruct (update_env_file file__ key w1) as [[[]|e] w2];
      cbn [snd] in Hmore |- *.
    + exists (more ++ [success (ENV_FILE file__)]).
      cbn [print snd stdout set_stdout]. rewrite Hmore.
      cbn [w1 stdout set_stdout]. by rewrite <- !app_assoc.
    + exists more. rewrite Hmore. cbn [w1 stdout set_stdout].
      by rewrite <- !app_assoc.
Qed.

Lemma key_preview_hides_witness :
  exists hidden,
    sample_key = take 20 sample_key ++ hidden ++ last_chars 20 sample_key
    /\ 60 <= length hidden.
Proof.
  refine (proj1 (key_preview_hides sample_file sample_key
                   (env_world env_one []) _)).
  vm_compute. reflexivity.
Defined.

(** ** The names of the backups *)

Section BackupNames.

Variable file__ : path.

Lemma ascii_only_digit (x : N) : (N_of_ascii (pretty_N_char x) < 128)%N.
Proof.
  unfold pretty_N_char. repeat case_match; vm_compute; reflexivity.
Qed.

Lemma pretty_N_go_ascii (x : N) : forall s,
  ascii_only s -> ascii_only (pretty_N_go x s).
Proof.
  induction (N.lt_wf_0 x) as [x _ IH]. intros s Hs.
  destruct (decide (x = 0%N)) as [->|Hx]; [by rewrite pretty_N_go_0|].
  rewrite pretty_N_go_step by lia. apply IH.
  - apply N.div_lt; lia.
  - constructor; [apply ascii_only_digit | exact Hs].
Qed.

Lemma pretty_N_ascii (x : N) : ascii_only (pretty x).
Proof.
  unfold pretty, pretty_N. case_decide.
  - repeat constructor.
  - apply pretty_N_go_ascii. constructor.
Qed.

Lemma pretty_Z_ascii (z : Z) : ascii_only (pretty z).
Proof.
  destruct z as [|p|p]; unfold pretty, pretty_Z.
  - repeat constructor.
  - apply pretty_N_ascii.
  - constructor; [vm_compute; reflexivity | apply pretty_N_ascii].
Qed.

(** The text of an ASCII string is the list of its characters. *)
Lemma u8_ascii (s : string) :
  ascii_only s -> u8 s = map N_of_ascii (list_ascii_of_string s).
Proof.
  unfold ascii_only, u8.
  induction (list_ascii_of_string s) as [|a l IH]; [done|].
  intros [Ha Hl]%Forall_cons. cbn [map decode].
  apply N.ltb_lt in Ha. rewrite Ha. by rewrite IH.
Qed.

Lemma u8_ascii_inj (s t : string) :
  ascii_only s -> ascii_only t -> u8 s = u8 t -> s = t.
Proof.
  intros Hs Ht. rewrite !u8_ascii by done. intros H.
  rewrite <- (string_of_list_ascii_of_string s),
    <- (string_of_list_ascii_of_string t).
  f_equal. revert H. generalize (list_ascii_of_string t).
  induction (list_ascii_of_string s) as [|a l IH]; intros [|b l'] H;
    try done.
  injection H as Hab Hl. f_equal; [|by apply IH].
  by rewrite <- (ascii_N_embedding a), <- (ascii_N_embedding b), Hab.
Qed.

(** Two seconds, two names. *)
Lemma backup_at_inj (now now' : Z) :
  backup_at file__ now = backup_at file__ now' -> now = now'.
Proof.
  unfold backup_at. intros H. apply app_inv_head in H.
  injection H as H.
  apply u8_ascii_inj in H; [|apply pretty_Z_ascii..].
  by apply (inj pretty).
Qed.

End BackupNames.

(** X17. The name of a backup tells the second at which it was taken:
    backups of different seconds have different names.  So a backup of
    another second is never overwritten, neither by [create_backup] nor by
    the rest of the run. *)
Theorem backup_of_other_second (file__ : path) (argv : list str) (w : world)
    (now : Z) :
  now <> clock w ->
  backup_at file__ now <> backup_at file__ (clock w)
  /\ files (snd (create_backup file__ w)) !! backup_at file__ now
     = files w !! backup_at file__ now
  /\ files (snd (run file__ argv w)) !! backup_at file__ now
     = files w !! backup_at file__ now.
Proof.
  intros Hnow.
  assert (backup_at file__ now <> backup_at file__ (clock w)) as Hname
    by (by intros ?%backup_at_inj).
  split; [done|]. split.
  - destruct (files w !! ENV_FILE file__) as [data|] eqn:Hfile.
    + destruct (create_backup_ok file__ w data Hfile) as (w' & -> & Hf & _).
      cbn [snd]. rewrite Hf. by rewrite lookup_insert_ne.
    + by rewrite (create_backup_missing file__ w Hfile).
  - unfold run.
    destruct (decide (argv !! 1 = Some (lit "--help"))) as [H1|H1];
      [by rewrite dunder_main_help by (by left)|].
    destruct (decide (argv !! 1 = Some (lit "-h"))) as [H2|H2];
      [by rewrite dunder_main_help by (by right)|].
    rewrite dunder_main_other by done.
    destruct (main file__ w) as [[[]|e] w'] eqn:Hmain.
    + apply main_Ret in Hmain as (data & key & new & Hfile & _ & _ & Hf).
      cbn [snd]. rewrite Hf.
      by rewrite !lookup_insert_ne by (done || apply not_eq_sym, backup_at_other).
    + apply main_Raise in Hmain.
      destruct (files w !! ENV_FILE file__) as [data|] eqn:Hfile.
      * destruct Hmain as [He Hf].
        destruct He as [-> | [-> | ->]]; cbn [snd files set_stdout];
          by rewrite Hf, lookup_insert_ne.
      * destruct Hmain as [-> Hf]. cbn [snd]. by rewrite Hf.
Qed.

Lemma backup_of_other_second_witness :
  backup_at sample_file 1699999999 <> backup_at sample_file 1700000000.
Proof.
  refine (proj1 (backup_of_other_second sample_file sample_argv
                   (env_world env_one []) 1699999999%Z _)).
  vm_compute. discriminate.
Defined.

(** ** The login prompt *)

(** X18. With a browser that starts and opens the page, the automated
    path returns what the scan of the selectors finds, provided the
    browser can be closed, and nothing otherwise.  Away from the login
    page it reads no answer.  At the login page (the address holds
    [login] or [auth]) it reads exactly one answer and ignores its text;
    the end of the input there makes it return nothing; an interrupt
    there leaves the function, unless closing the browser fails, in which
    case the interrupt is lost and nothing is returned. *)
Theorem try_selenium_extraction_login (w : world) :
  selenium_installed (browser w) = true ->
  chrome_starts (browser w) = true ->
  page_opens (browser w) = true ->
  let b := browser w in
  let found := if chrome_quits b then scan_selectors b selectors else None in
  let r := try_selenium_extraction w in
  if contains (lit "login") (current_url b)
     || contains (lit "auth") (current_url b)
  then
    match stdin w with
    | [] => fst r = Ret None /\ stdin (snd r) = []
    | Line _ :: rest => fst r = Ret found /\ stdin (snd r) = rest
    | Interrupt :: rest =>
      fst r = (if chrome_quits b then Raise KeyboardInterrupt else Ret None)
      /\ stdin (snd r) = rest
    end
  else fst r = Ret found /\ stdin (snd r) = stdin w.
Proof.
  intros H1 H2 H3. cbv zeta.
  unfold try_selenium_extraction, input.
  unfold bind, driver, try_except, try_finally, print, ret, raise.
  rewrite H1, H2, H3. cbn [negb]. cbv beta iota zeta.
  destruct (contains _ (current_url (browser w))
            || contains _ (current_url (browser w)));
    cbv beta iota zeta; cbn [stdin set_stdout].
  - destruct (stdin w) as [|[t|] rest] eqn:Hin; cbv beta iota zeta;
      destruct (scan_selectors (browser w) selectors) as [k|];
      destruct (chrome_quits (browser w)); cbv beta iota zeta;
      cbn [fst snd stdin set_stdout set_stdin]; rewrite ?Hin; by split.
  - destruct (scan_selectors (browser w) selectors) as [k|];
      destruct (chrome_quits (browser w)); cbv beta iota zeta;
      cbn [fst snd stdin set_stdout set_stdin]; by split.
Qed.

Lemma try_selenium_extraction_login_witness :
  fst (try_selenium_extraction
         (chrome_world (sample_chrome true true [Text sample_key])
            [Line (lit "anything")]))
  = Ret (Some sample_key)
  /\ fst (try_selenium_extraction
            (chrome_world (sample_chrome true false [Text sample_key])
               [Interrupt]))
     = Ret None.
Proof.
  split.
  - pose proof (try_selenium_extraction_login
                  (chrome_world (sample_chrome true true [Text sample_key])
                     [Line (lit "anything")])
                  eq_refl eq_refl eq_refl) as H.
    cbv zeta in H.
    destruct H as [H _]. etransitivity; [exact H|]. vm_compute. reflexivity.
  - pose proof (try_selenium_extraction_login
                  (chrome_world (sample_chrome true false [Text sample_key])
                     [Interrupt])
                  eq_refl eq_refl eq_refl) as H.
    cbv zeta in H.
    destruct H as [H _]. exact H.
Defined.

(** ** The rewritten line *)

Section PrefixFacts.

Implicit Types (p s t : str).



End PrefixFacts.



(** ** A whole run with the browser *)

Section AutomatedFacts.

Implicit Types (w : world) (key : str).



End AutomatedFacts.



(** ** The exit status *)

Section InterruptFacts.

Variable file__ : path.

Implicit Types (w : world) (e : exn).



End InterruptFacts.



